(** * Deferred calls and the parameter registry

    A shallow embedding of [new_defer.py] (the [parametrize] wrapper, its
    [_DeferredCall] and [MyBound.resolve_placeholders]) and of
    [hypothesis/strategies/_internal/params.py] ([ParamStrategyRegistry]),
    together with the part of CPython 3.11's [inspect] module both rely on
    ([Signature._bind], [BoundArguments.args], [BoundArguments.kwargs]).

    Python dictionaries keep insertion order, and the order is observable
    (the "Missing argument(s)" message lists names in dictionary order), so
    a dictionary is an association list with unique keys.  The
    [arguments] dictionary of a [BoundArguments] is a shared mutable object:
    it lives in a heap and a [BoundArguments] holds its location. *)

From Stdlib Require Import Ascii.
From stdpp Require Import gmap strings list fin_maps pretty.

#[local] Set Warnings "-register-all".

Open Scope Z_scope.
Open Scope string_scope.
Open Scope list_scope.

(** ** Python values *)

Definition loc := nat.

Inductive value :=
  | VNone
  | VInt (z : Z)
  | VStr (s : string)
  | VExpects (name : option string)
      (* an [ExpectsParameter] instance *)
  | VDeferred (name : string) (bound : loc)
      (* a [_DeferredCall] instance: a subclass of [ExpectsParameter]
         holding the location of its [_bound.arguments] *)
  | VTuple (items : list value)
  | VList (items : list value)
  | VDict (items : list (string * value)).

Inductive exn :=
  | TypeError (msg : string)
  | IndexError (msg : string)
  | KeyError (msg : string)
  | AttributeError (msg : string)
  | RuntimeError (msg : string)
  | ValueError (msg : string).

Inductive result (A : Type) :=
  | Ok (a : A)
  | Raise (e : exn).
Arguments Ok {A} a.
Arguments Raise {A} e.

(** [repr] of a [str], a character of the model standing for the code point
    of the same number (below 256).  The quote is the double quote when
    the string holds a single quote and no double quote, the single quote
    otherwise; the quote and the backslash are escaped with a backslash,
    tab, newline and carriage return as [\t], [\n], [\r], and the other
    non-printable code points (below 32, 127 to 160, and 173) as [\xNN]. *)
Definition double_quote : ascii := ascii_of_nat 34.

Definition hex_digit (n : nat) : ascii :=
  ascii_of_nat (if (n <? 10)%nat then 48 + n else 87 + n)%nat.

Definition escape (quote c : ascii) : string :=
  let n := nat_of_ascii c in
  if Ascii.eqb c quote || Ascii.eqb c "\"%char then String "\" (String c EmptyString)
  else if (n =? 9)%nat then "\t"
  else if (n =? 10)%nat then "\n"
  else if (n =? 13)%nat then "\r"
  else if (n <? 32)%nat || (n =? 127)%nat
          || ((128 <=? n)%nat && (n <=? 160)%nat) || (n =? 173)%nat then
    String "\" (String "x" (String (hex_digit (n / 16))
                               (String (hex_digit (n mod 16)) EmptyString)))
  else String c EmptyString.

Definition repr (s : string) : string :=
  let cs := String.list_ascii_of_string s in
  let quote :=
    if existsb (Ascii.eqb "'"%char) cs && negb (existsb (Ascii.eqb double_quote) cs)
    then double_quote else "'"%char in
  String quote
    (fold_right (fun c acc => escape quote c +:+ acc) (String quote EmptyString) cs).

(** ** Insertion-ordered dictionaries *)

Module PyDict.
Section ops.
Context {V : Type}.

Fixpoint get (k : string) (d : list (string * V)) : option V :=
  match d with
  | [] => None
  | (k', v) :: d' => if String.eqb k k' then Some v else get k d'
  end.

(* [k in d] *)
Definition contains (k : string) (d : list (string * V)) : bool :=
  match get k d with Some _ => true | None => false end.

(* [d[k] = v]: an existing key keeps its position, a new key goes last *)
Fixpoint set (k : string) (v : V) (d : list (string * V)) : list (string * V) :=
  match d with
  | [] => [(k, v)]
  | (k', v') :: d' =>
      if String.eqb k k' then (k, v) :: d' else (k', v') :: set k v d'
  end.

Fixpoint remove (k : string) (d : list (string * V)) : list (string * V) :=
  match d with
  | [] => []
  | (k', v') :: d' =>
      if String.eqb k k' then d' else (k', v') :: remove k d'
  end.

(* [d.pop(k)] without a default: [None] stands for the [KeyError] *)
Definition pop (k : string) (d : list (string * V))
    : option (V * list (string * V)) :=
  match get k d with
  | Some v => Some (v, remove k d)
  | None => None
  end.

(* [d.pop(k, dflt)] *)
Definition pop_default (k : string) (dflt : V) (d : list (string * V))
    : V * list (string * V) :=
  match get k d with
  | Some v => (v, remove k d)
  | None => (dflt, d)
  end.

(* [d.update(e)] *)
Definition update (d e : list (string * V)) : list (string * V) :=
  foldl (fun acc kv => set kv.1 kv.2 acc) d e.

Definition keys (d : list (string * V)) : list string := d.*1.
Definition values (d : list (string * V)) : list V := d.*2.
End ops.
End PyDict.

Abbreviation pydict := (list (string * value)).

(** ** Iteration protocol on the modelled values *)

(* [type(v).__name__] *)
Definition type_name (v : value) : string :=
  match v with
  | VNone => "NoneType"
  | VInt _ => "int"
  | VStr _ => "str"
  | VExpects _ => "ExpectsParameter"
  | VDeferred _ _ => "_DeferredCall"
  | VTuple _ => "tuple"
  | VList _ => "list"
  | VDict _ => "dict"
  end.

(* [list(v)] / [for a in v]: tuples, lists, dictionaries (their keys) and
   strings (their characters) are iterable, the other values are not. *)
Definition py_iter (v : value) : result (list value) :=
  match v with
  | VTuple l | VList l => Ok l
  | VDict d => Ok (VStr <$> PyDict.keys d)
  | VStr s => Ok ((fun c => VStr (String c EmptyString)) <$> String.list_ascii_of_string s)
  | VNone | VInt _ | VExpects _ | VDeferred _ _ =>
      Raise (TypeError ("'" +:+ type_name v +:+ "' object is not iterable"))
  end.

(* [hash(v)] fails on lists and dictionaries, and on a tuple that holds
   one: the name of the first type that cannot be hashed, if any *)
Fixpoint unhashable_type (v : value) : option string :=
  match v with
  | VList _ => Some "list"
  | VDict _ => Some "dict"
  | VTuple l =>
      (fix first (l : list value) : option string :=
         match l with
         | [] => None
         | x :: l' =>
             match unhashable_type x with
             | Some t => Some t
             | None => first l'
             end
         end) l
  | _ => None
  end.

(* [d.update(seq)] for a [seq] that is not a mapping: every element is
   turned into a sequence, which must have length two, and its first item
   becomes a key.  The dictionaries of the model have string keys; a key
   of another (hashable) type is not stored, and the flag records that
   one was met. *)
Fixpoint merge_from_seq (d : pydict) (other_keys : bool) (i : nat)
    (items : list value) : result (pydict * bool) :=
  match items with
  | [] => Ok (d, other_keys)
  | item :: items' =>
      match py_iter item with
      | Raise _ =>
          Raise (TypeError ("cannot convert dictionary update sequence element #"
                            +:+ pretty i +:+ " to a sequence"))
      | Ok [k; v] =>
          match unhashable_type k with
          | Some t => Raise (TypeError ("unhashable type: '" +:+ t +:+ "'"))
          | None =>
              match k with
              | VStr key => merge_from_seq (PyDict.set key v d) other_keys (S i) items'
              | _ => merge_from_seq d true (S i) items'
              end
          end
      | Ok fast =>
          Raise (ValueError ("dictionary update sequence element #" +:+ pretty i
                             +:+ " has length " +:+ pretty (length fast)
                             +:+ "; 2 is required"))
      end
  end.

(* [d.update(other)] *)
Definition dict_update (d : pydict) (other_keys : bool) (other : value)
    : result (pydict * bool) :=
  match other with
  | VDict e => Ok (PyDict.update d e, other_keys)
  | _ =>
      match py_iter other with
      | Raise e => Raise e
      | Ok items => merge_from_seq d other_keys 0 items
      end
  end.

(* [l.pop()]: removes and returns the LAST item of the list *)
Definition list_pop (l : list value) : option (value * list value) :=
  match last l with
  | Some v => Some (v, removelast l)
  | None => None
  end.

(** ** The part of [inspect] used by the wrapper

    [inspect] belongs to the Python standard library, not to the
    repository; the definitions below follow CPython 3.11's
    [Lib/inspect.py] ([new_defer.py] imports [typing.Self], so it needs
    3.11 or later), branch by branch. *)

Module Inspect.

Inductive ParameterKind :=
  | POSITIONAL_ONLY
  | POSITIONAL_OR_KEYWORD
  | VAR_POSITIONAL
  | KEYWORD_ONLY
  | VAR_KEYWORD.

(* [inspect.Parameter]; [param_default = None] is the [empty] marker *)
Record Param := {
  param_name : string;
  param_kind : ParameterKind;
  param_default : option value
}.

Definition Signature := list Param.

Definition kind_eqb (a b : ParameterKind) : bool :=
  match a, b with
  | POSITIONAL_ONLY, POSITIONAL_ONLY
  | POSITIONAL_OR_KEYWORD, POSITIONAL_OR_KEYWORD
  | VAR_POSITIONAL, VAR_POSITIONAL
  | KEYWORD_ONLY, KEYWORD_ONLY
  | VAR_KEYWORD, VAR_KEYWORD => true
  | _, _ => false
  end.

Definition has_default (p : Param) : bool :=
  match param_default p with Some _ => true | None => false end.

Definition msg_positional_only (p : Param) : string :=
  repr (param_name p) +:+ " parameter is positional only, but was passed as a keyword".
Definition msg_missing (p : Param) : string :=
  "missing a required argument: " +:+ repr (param_name p).
Definition msg_multiple (p : Param) : string :=
  "multiple values for argument " +:+ repr (param_name p).

(* The [while True] loop of [Signature._bind] over the positional values.
   Returns the arguments bound so far and the parameters the keyword loop
   still has to visit ([parameters_ex] chained with the iterator's rest). *)
Fixpoint bind_positional (partial : bool) (parameters : list Param)
    (arg_vals : list value) (kwargs arguments : pydict)
    : result (pydict * list Param) :=
  match parameters with
  | [] =>
      match arg_vals with
      | [] => Ok (arguments, [])
      | _ :: _ => Raise (TypeError "too many positional arguments")
      end
  | param :: parameters' =>
      match arg_vals with
      | [] =>
          if kind_eqb (param_kind param) VAR_POSITIONAL then
            Ok (arguments, parameters')
          else if PyDict.contains (param_name param) kwargs then
            if kind_eqb (param_kind param) POSITIONAL_ONLY then
              Raise (TypeError (msg_positional_only param))
            else Ok (arguments, param :: parameters')
          else if kind_eqb (param_kind param) VAR_KEYWORD || has_default param then
            Ok (arguments, param :: parameters')
          else if partial then Ok (arguments, param :: parameters')
          else Raise (TypeError (msg_missing param))
      | arg_val :: arg_vals' =>
          match param_kind param with
          | VAR_KEYWORD | KEYWORD_ONLY =>
              Raise (TypeError "too many positional arguments")
          | VAR_POSITIONAL =>
              Ok (PyDict.set (param_name param) (VTuple (arg_val :: arg_vals')) arguments,
                  parameters')
          | k =>
              if PyDict.contains (param_name param) kwargs
                 && negb (kind_eqb k POSITIONAL_ONLY) then
                Raise (TypeError (msg_multiple param))
              else
                bind_positional partial parameters' arg_vals' kwargs
                  (PyDict.set (param_name param) arg_val arguments)
          end
      end
  end.

(* The [for param in itertools.chain(parameters_ex, parameters)] loop. *)
Fixpoint bind_keywords (partial : bool) (parameters : list Param)
    (kwargs arguments : pydict) (kwargs_param : option Param)
    : result (pydict * pydict * option Param) :=
  match parameters with
  | [] => Ok (arguments, kwargs, kwargs_param)
  | param :: parameters' =>
      match param_kind param with
      | VAR_KEYWORD =>
          bind_keywords partial parameters' kwargs arguments (Some param)
      | VAR_POSITIONAL =>
          bind_keywords partial parameters' kwargs arguments kwargs_param
      | k =>
          match PyDict.pop (param_name param) kwargs with
          | None =>
              if negb partial && negb (has_default param) then
                Raise (TypeError (msg_missing param))
              else bind_keywords partial parameters' kwargs arguments kwargs_param
          | Some (arg_val, kwargs') =>
              if kind_eqb k POSITIONAL_ONLY then
                Raise (TypeError (msg_positional_only param))
              else
                bind_keywords partial parameters' kwargs'
                  (PyDict.set (param_name param) arg_val arguments) kwargs_param
          end
      end
  end.

(* [Signature._bind(args, kwargs, partial=...)]: the [arguments] dictionary
   of the resulting [BoundArguments]. *)
Definition _bind (sig : Signature) (args : list value) (kwargs : pydict)
    (partial : bool) : result pydict :=
  match bind_positional partial sig args kwargs [] with
  | Raise e => Raise e
  | Ok (arguments, parameters) =>
      match bind_keywords partial parameters kwargs arguments None with
      | Raise e => Raise e
      | Ok (arguments, kwargs, kwargs_param) =>
          match kwargs with
          | [] => Ok arguments
          | (k, _) :: _ =>
              match kwargs_param with
              | Some p => Ok (PyDict.set (param_name p) (VDict kwargs) arguments)
              | None =>
                  Raise (TypeError ("got an unexpected keyword argument " +:+ repr k))
              end
          end
      end
  end.

(* [BoundArguments.args] *)
Fixpoint args_loop (parameters : list Param) (arguments : pydict)
    (args : list value) : result (list value) :=
  match parameters with
  | [] => Ok args
  | param :: parameters' =>
      match param_kind param with
      | VAR_KEYWORD | KEYWORD_ONLY => Ok args
      | k =>
          match PyDict.get (param_name param) arguments with
          | None => Ok args
          | Some arg =>
              if kind_eqb k VAR_POSITIONAL then
                match py_iter arg with
                | Ok l => args_loop parameters' arguments (args ++ l)
                | Raise e => Raise e
                end
              else args_loop parameters' arguments (args ++ [arg])
          end
      end
  end.

Definition BoundArguments_args (sig : Signature) (arguments : pydict)
    : result (list value) :=
  args_loop sig arguments [].

(* [BoundArguments.kwargs]: the dictionary, and whether [kwargs.update]
   met a key that is not a string. *)
Fixpoint kwargs_loop (parameters : list Param) (arguments : pydict)
    (kwargs_started : bool) (kwargs : pydict) (other_keys : bool)
    : result (pydict * bool) :=
  match parameters with
  | [] => Ok (kwargs, other_keys)
  | param :: parameters' =>
      let visit :=
        match PyDict.get (param_name param) arguments with
        | None => kwargs_loop parameters' arguments true kwargs other_keys
        | Some arg =>
            if kind_eqb (param_kind param) VAR_KEYWORD then
              match dict_update kwargs other_keys arg with
              | Ok (kwargs', other_keys') =>
                  kwargs_loop parameters' arguments true kwargs' other_keys'
              | Raise e => Raise e
              end
            else
              kwargs_loop parameters' arguments true
                (PyDict.set (param_name param) arg kwargs) other_keys
        end in
      if kwargs_started then visit
      else
        match param_kind param with
        | VAR_KEYWORD | KEYWORD_ONLY => visit
        | _ =>
            if PyDict.contains (param_name param) arguments then
              kwargs_loop parameters' arguments false kwargs other_keys
            else kwargs_loop parameters' arguments true kwargs other_keys
        end
  end.

Definition BoundArguments_kwargs (sig : Signature) (arguments : pydict)
    : result (pydict * bool) :=
  kwargs_loop sig arguments false [] false.

End Inspect.

(** ** The effect monad

    A computation over a state [S] returns a value or raises, and in both
    cases leaves a state behind: what was mutated before an exception stays
    mutated.  [None] is reserved for an access to an object that was never
    allocated, which no Python program can perform. *)

Definition Eff (S A : Type) : Type := S -> option (result A * S).

#[global] Instance Eff_ret {S} : MRet (Eff S) := fun A a st => Some (Ok a, st).

#[global] Instance Eff_bind {S} : MBind (Eff S) := fun A B f m st =>
  match m st with
  | Some (Ok a, st') => f a st'
  | Some (Raise e, st') => Some (Raise e, st')
  | None => None
  end.

Definition raise {S A} (e : exn) : Eff S A := fun st => Some (Raise e, st).

Definition lift {S A} (r : result A) : Eff S A := fun st => Some (r, st).

(* [try: r = m() except Exception as e: r = e]: the outcome as a value *)
Definition attempt {S A} (m : Eff S A) : Eff S (result A) := fun st =>
  match m st with
  | Some (r, st') => Some (Ok r, st')
  | None => None
  end.

(** ** Heap of [arguments] dictionaries

    [heap] holds the dictionaries that [BoundArguments] objects point to;
    [calls] records every invocation of the wrapped function. *)

Record state := {
  heap : list pydict;
  calls : list (list value * pydict)
}.

Abbreviation M := (Eff state).

Definition alloc (d : pydict) : M loc := fun st =>
  Some (Ok (length (heap st)), {| heap := heap st ++ [d]; calls := calls st |}).

Definition load (l : loc) : M pydict := fun st =>
  match heap st !! l with
  | Some d => Some (Ok d, st)
  | None => None
  end.

Definition store (l : loc) (d : pydict) : M unit := fun st =>
  match heap st !! l with
  | Some _ => Some (Ok tt, {| heap := <[l := d]> (heap st); calls := calls st |})
  | None => None
  end.

(** ** [new_defer.py] *)

Module NewDefer.
Import Inspect.

(* [inspect.BoundArguments.__init__] stores the dictionary it is given:
   the object is the pair of a signature and a REFERENCE to the dictionary. *)
Record BoundArguments := {
  signature : Signature;
  arguments : loc
}.

(* [class MyBound(inspect.BoundArguments)] adds methods only. *)
Abbreviation MyBound := BoundArguments.

(* [sig.bind( *args, **kwargs )] and [sig.bind_partial( *args, **kwargs )]:
   [_bind] fills a fresh dictionary. *)
Definition Signature_bind (sig : Signature) (args : list value) (kwargs : pydict)
    : M BoundArguments :=
  d ← lift (_bind sig args kwargs false);
  l ← alloc d;
  mret {| signature := sig; arguments := l |}.

Definition Signature_bind_partial (sig : Signature) (args : list value)
    (kwargs : pydict) : M BoundArguments :=
  d ← lift (_bind sig args kwargs true);
  l ← alloc d;
  mret {| signature := sig; arguments := l |}.

(* [def _is_placeholder(v): return isinstance(v, ExpectsParameter)] *)
Definition _is_placeholder (v : value) : bool :=
  match v with
  | VExpects _ | VDeferred _ _ => true
  | _ => false
  end.

(* the test of [_has_placeholders] on the dictionary itself *)
Definition any_placeholder (d : pydict) : bool :=
  existsb _is_placeholder (PyDict.values d).

(* [def _has_placeholders(bound):
      return any(_is_placeholder(v) for v in bound.arguments.values())] *)
Definition _has_placeholders (bound : BoundArguments) : M bool :=
  d ← load (arguments bound);
  mret (any_placeholder d).

(* [MyBound.from_bound]: [cls(bound.signature, bound.arguments)] *)
Definition from_bound (bound : BoundArguments) : MyBound :=
  {| signature := signature bound; arguments := arguments bound |}.

(* [MyBound.copy]: [self.__class__(self.signature, self.arguments)].  The
   source comments it as a shallow copy; the constructor keeps the very
   dictionary it is handed, so the result points to the same location. *)
Definition copy (self : MyBound) : MyBound :=
  {| signature := signature self; arguments := arguments self |}.

(* [[args.pop() if _is_placeholder(a) else a for a in items]]: returns the
   new list and what is left of [args]. *)
Fixpoint fill_placeholders (items args : list value)
    : result (list value * list value) :=
  match items with
  | [] => Ok ([], args)
  | a :: items' =>
      if _is_placeholder a then
        match list_pop args with
        | None => Raise (IndexError "pop from empty list")
        | Some (v, args') =>
            match fill_placeholders items' args' with
            | Ok (r, rest) => Ok (v :: r, rest)
            | Raise e => Raise e
            end
        end
      else
        match fill_placeholders items' args with
        | Ok (r, rest) => Ok (a :: r, rest)
        | Raise e => Raise e
        end
  end.

(* [d[k]] *)
Definition getitem (k : string) (d : pydict) : result value :=
  match PyDict.get k d with
  | Some v => Ok v
  | None => Raise (KeyError k)
  end.

(* [target.update(other)] on the values: only a dictionary has [update].
   The dictionary of a variadic-keyword slot is kept inline in its slot: it
   is reached only through [self.arguments] once the supplement's entry has
   been popped, and updating it with itself changes nothing.  In
   [resolve_placeholders] the operand [other] is the empty dictionary or
   the very value of the slot, so a dictionary is only ever updated with a
   dictionary and no key of another type than [str] can come in. *)
Definition value_update (target other : value) : result value :=
  match target with
  | VDict d =>
      match dict_update d false other with
      | Ok (d', _) => Ok (VDict d')
      | Raise e => Raise e
      end
  | _ =>
      Raise (AttributeError ("'" +:+ type_name target
                             +:+ "' object has no attribute 'update'"))
  end.

(* [MyBound.resolve_placeholders(self, bound)] *)
Definition resolve_placeholders (self bound : MyBound) : M unit :=
  (* bound = BoundArguments(bound.signature, bound.arguments) *)
  let bound := {| signature := signature bound; arguments := arguments bound |} in
  (* self.arguments.update(bound.arguments) *)
  e ← load (arguments bound);
  d ← load (arguments self);
  store (arguments self) (PyDict.update d e);;
  (* if 'args' in self.arguments: *)
  d ← load (arguments self);
  (if PyDict.contains "args" d then
     (* args = list(bound.arguments.pop('args', ())) *)
     e ← load (arguments bound);
     let '(popped, e') := PyDict.pop_default "args" (VTuple []) e in
     store (arguments bound) e';;
     args ← lift (py_iter popped);
     (* self.arguments['args'] = [... for a in self.arguments['args']] *)
     d ← load (arguments self);
     cur ← lift (getitem "args" d);
     items ← lift (py_iter cur);
     filled ← lift (fill_placeholders items args);
     d ← load (arguments self);
     store (arguments self) (PyDict.set "args" (VList filled.1) d)
   else mret tt);;
  (* if 'kwargs' in self.arguments: *)
  d ← load (arguments self);
  if PyDict.contains "kwargs" d then
    (* kwargs = bound.arguments.pop('kwargs', {}) *)
    e ← load (arguments bound);
    let '(kwargs, e') := PyDict.pop_default "kwargs" (VDict []) e in
    store (arguments bound) e';;
    (* self.arguments['kwargs'].update(kwargs) *)
    d ← load (arguments self);
    cur ← lift (getitem "kwargs" d);
    new ← lift (value_update cur kwargs);
    d ← load (arguments self);
    store (arguments self) (PyDict.set "kwargs" new d)
  else mret tt.

(* [len(bound.arguments)] *)
Definition len_arguments (bound : BoundArguments) : M nat :=
  d ← load (arguments bound);
  mret (length d).

(* [[name for name, val in d.items() if _is_placeholder(val)]] *)
Definition placeholder_names (d : pydict) : list string :=
  omap (fun kv => if _is_placeholder kv.2 then Some kv.1 else None) d.

Definition msg_nested : string :=
  "Deferred call requires concrete values, not ExpectsParameter placeholders".
Definition msg_too_many : string := "Too many arguments for deferred call".
Definition msg_missing_prefix : string := "Missing argument(s) for deferred call: ".
(* raised by the call itself when [self] is given as a keyword *)
Definition msg_self : string :=
  "parametrize.<locals>._DeferredCall.__call__() got multiple values for argument 'self'".
Definition msg_keywords : string := "keywords must be strings".

(* [class _DeferredCall(ExpectsParameter)] *)
Record _DeferredCall := {
  name : string;
  _bound : MyBound;
  _param_arguments : list value
}.

Section parametrize.
(* [def parametrize(fn): sig = inspect.signature(fn)] *)
Variable fn : list value -> pydict -> result value.
Variable fn_name : string.
Variable sig : Signature.

(* [fn( *args, **kwargs )]: the call is recorded, its outcome passed on *)
Definition call_fn (args : list value) (kwargs : pydict) : M value := fun st =>
  Some (fn args kwargs,
        {| heap := heap st; calls := calls st ++ [(args, kwargs)] |}).

(* [_DeferredCall.__init__] *)
Definition _DeferredCall_init (bound : BoundArguments) : _DeferredCall :=
  {| name := "deferred_" +:+ fn_name;
     _bound := from_bound bound;
     _param_arguments := [] |}.

(* the object as a Python value, and back *)
Definition as_value (self : _DeferredCall) : value :=
  VDeferred (name self) (arguments (_bound self)).

Definition of_value (v : value) : option _DeferredCall :=
  match v with
  | VDeferred n l =>
      Some {| name := n;
              _bound := {| signature := sig; arguments := l |};
              _param_arguments := [] |}
  | _ => None
  end.

(* [fn( *bound.args, **bound.kwargs )] for a [bound] whose dictionary is [d]:
   both properties are evaluated, then the call refuses keywords that are
   not strings *)
Definition dispatch (sig' : Signature) (d : pydict) : M value :=
  a ← lift (BoundArguments_args sig' d);
  k ← lift (BoundArguments_kwargs sig' d);
  if (k.2 : bool) then raise (TypeError msg_keywords)
  else call_fn a k.1.

(* [_DeferredCall.__call__(self, *args, **kwargs)]: the first parameter is
   named [self], so a keyword of that name is refused by the call itself,
   before the body runs *)
Definition __call__ (self : _DeferredCall) (args : list value) (kwargs : pydict)
    : M value :=
  if PyDict.contains "self" kwargs then raise (TypeError msg_self) else
  partial_bound ← Signature_bind_partial sig args kwargs;
  let extra := from_bound partial_bound in
  hp ← _has_placeholders extra;
  if (hp : bool) then raise (TypeError msg_nested)
  else
    let completed_bound := copy (_bound self) in
    resolve_placeholders completed_bound extra;;
    n_completed ← len_arguments completed_bound;
    n_self ← len_arguments (_bound self);
    if (n_self <? n_completed)%nat then raise (TypeError msg_too_many)
    else
      hp ← _has_placeholders completed_bound;
      if (hp : bool) then
        d ← load (arguments (_bound self));
        let missing := placeholder_names d in
        raise (TypeError (msg_missing_prefix +:+ String.concat ", " missing))
      else
        d ← load (arguments completed_bound);
        dispatch (signature completed_bound) d.

(* [wrapper( *args, **kwargs )] *)
Definition wrapper (args : list value) (kwargs : pydict) : M value :=
  bound ← Signature_bind sig args kwargs;
  hp ← _has_placeholders bound;
  if (hp : bool) then mret (as_value (_DeferredCall_init bound))
  else call_fn args kwargs.

(* calling whatever [wrapper] returned: [step( *args, **kwargs )] *)
Definition call_value (v : value) (args : list value) (kwargs : pydict)
    : M value :=
  match of_value v with
  | Some dc => __call__ dc args kwargs
  | None => raise (TypeError ("'" +:+ type_name v +:+ "' object is not callable"))
  end.
End parametrize.

End NewDefer.

(** ** [hypothesis/strategies/_internal/params.py] *)

Module Params.

(* A strategy is [just(v)] or some other strategy object. *)
Inductive SearchStrategy :=
  | just (v : value)
  | Strategy (id : nat).

(* What a caller may hand to the registry: a strategy or any other object;
   [isinstance(strat, SearchStrategy)] tells them apart. *)
Inductive pyobj :=
  | Obj (v : value)
  | Strat (s : SearchStrategy).

Definition registry := nat.

(* The class attribute [_current_registry] and, for every instance created
   so far, its [_strategies] dictionary. *)
Record world := {
  _current_registry : option registry;
  instances : list (gmap string SearchStrategy)
}.

Abbreviation R := (Eff world).

Definition new_instance : R registry := fun w =>
  Some (Ok (length (instances w)),
        {| _current_registry := _current_registry w;
           instances := instances w ++ [∅] |}).

Definition _strategies (self : registry) : R (gmap string SearchStrategy) := fun w =>
  match instances w !! self with
  | Some m => Some (Ok m, w)
  | None => None
  end.

Definition set_strategies (self : registry) (m : gmap string SearchStrategy)
    : R unit := fun w =>
  match instances w !! self with
  | Some _ =>
      Some (Ok tt, {| _current_registry := _current_registry w;
                      instances := <[self := m]> (instances w) |})
  | None => None
  end.

Definition msg_enter : string := "Cannot enter ParamStrategyRegistry more than once".
Definition msg_registered (name : string) : string :=
  "Parameter " +:+ repr name +:+ " already registered".
Definition msg_not_set_up (name : string) : string :=
  "Strategy for parameter `" +:+ name +:+ "` has not been set up. Cannot resolve reference.".
Definition msg_outside (name : string) : string :=
  "Cannot determine parameter value `" +:+ name +:+ "` outside of a hypothesis @given.".

(* [__enter__]: an instance defines neither [__bool__] nor [__len__], so
   [not self.__class__._current_registry] holds exactly when the slot is
   [None]. *)
Definition __enter__ (self : registry) : R unit := fun w =>
  match _current_registry w with
  | None =>
      Some (Ok tt, {| _current_registry := Some self; instances := instances w |})
  | Some _ => Some (Raise (RuntimeError msg_enter), w)
  end.

(* [__exit__] *)
Definition __exit__ (self : registry) : R unit := fun w =>
  Some (Ok tt, {| _current_registry := None; instances := instances w |}).

(* [with self: body]: [__exit__] returns [None], so an exception raised by
   the body propagates after the exit has run. *)
Definition with_registry {A} (self : registry) (body : R A) : R A := fun w =>
  match __enter__ self w with
  | Some (Ok _, w1) =>
      match body w1 with
      | Some (r, w2) =>
          match __exit__ self w2 with
          | Some (Ok _, w3) => Some (r, w3)
          | Some (Raise e, w3) => Some (Raise e, w3)
          | None => None
          end
      | None => None
      end
  | Some (Raise e, w1) => Some (Raise e, w1)
  | None => None
  end.

(* [_register_param_value] *)
Definition _register_param_value (self : registry) (name : string)
    (strat : SearchStrategy) : R unit :=
  m ← _strategies self;
  match m !! name with
  | Some _ => raise (KeyError (msg_registered name))
  | None => set_strategies self (<[name := strat]> m)
  end.

(* [if not isinstance(strat, SearchStrategy): strat = just(strat)] *)
Definition as_strategy (o : pyobj) : SearchStrategy :=
  match o with
  | Strat s => s
  | Obj v => just v
  end.

(* the [for name, strat in maybe_strategies.items()] loop *)
Fixpoint register_items (self : registry) (items : list (string * pyobj))
    : R unit :=
  match items with
  | [] => mret tt
  | (name, strat) :: items' =>
      _register_param_value self name (as_strategy strat);;
      register_items self items'
  end.

(* [{**given_kwargs, **kwargs}] *)
Definition merged (kwargs given_kwargs : list (string * pyobj))
    : list (string * pyobj) :=
  PyDict.update (PyDict.update [] given_kwargs) kwargs.

(* [_register_param_values] *)
Definition _register_param_values (self : registry)
    (kwargs given_kwargs : list (string * pyobj)) : R unit :=
  let maybe_strategies := merged kwargs given_kwargs in
  register_items self maybe_strategies.

(* [ParamStrategyRegistry(kwargs, given_kwargs)] *)
Definition __init__ (kwargs given_kwargs : list (string * pyobj)) : R registry :=
  self ← new_instance;
  _register_param_values self kwargs given_kwargs;;
  mret self.

(* [ParamStrategyRegistry.get(name)]: the [AttributeError] of
   [None._strategies] and the [KeyError] of the dictionary are both turned
   into a [RuntimeError]. *)
Definition get (name : string) : R SearchStrategy := fun w =>
  match _current_registry w with
  | None => Some (Raise (RuntimeError (msg_outside name)), w)
  | Some self =>
      match instances w !! self with
      | None => None
      | Some m =>
          match m !! name with
          | Some strat => Some (Ok strat, w)
          | None => Some (Raise (RuntimeError (msg_not_set_up name)), w)
          end
      end
  end.

End Params.

(** ** Concrete signatures, callables and states used by the examples *)

Module Scenarios.
Import Inspect NewDefer.

(* [ExpectsParameter()] *)
Definition P : value := VExpects None.

Definition positional (n : string) : Param :=
  {| param_name := n; param_kind := POSITIONAL_OR_KEYWORD; param_default := None |}.

(* [(x, *args, other=None)], the signature of [demo] in [new_defer.py] *)
Definition sig_demo : Signature :=
  [ positional "x";
    {| param_name := "args"; param_kind := VAR_POSITIONAL; param_default := None |};
    {| param_name := "other"; param_kind := KEYWORD_ONLY; param_default := Some VNone |} ].

(* [(a, b)] *)
Definition sig_ab : Signature := [ positional "a"; positional "b" ].

(* [(x, *args)] *)
Definition sig_x_args : Signature :=
  [ positional "x";
    {| param_name := "args"; param_kind := VAR_POSITIONAL; param_default := None |} ].

(* [(x, **kwargs)] *)
Definition sig_x_kwargs : Signature :=
  [ positional "x";
    {| param_name := "kwargs"; param_kind := VAR_KEYWORD; param_default := None |} ].

(* a callable that returns the positional and keyword values it received *)
Definition echo (args : list value) (kwargs : pydict) : result value :=
  Ok (VTuple [VTuple args; VDict kwargs]).

Definition fresh : state := {| heap := []; calls := [] |}.

(* the deferred call of Scenario C: signature [(a, b)], created from [(P, 2)] *)
Definition deferred_C : _DeferredCall :=
  {| name := "deferred_f";
     _bound := {| signature := sig_ab; arguments := 0%nat |};
     _param_arguments := [] |}.

Definition state_C : state :=
  {| heap := [[("a", P); ("b", VInt 2)]]; calls := [] |}.

Definition no_registry : Params.world :=
  {| Params._current_registry := None; Params.instances := [] |}.

End Scenarios.

(** ** Predicates used to state what the deferred call never does *)

Module Quiet.
Import Inspect NewDefer.

(* a computation that never calls the wrapped function and raises only
   exceptions satisfying [P] *)
Definition quiet {A} (P : exn -> Prop) (m : M A) : Prop :=
  forall st r st', m st = Some (r, st') ->
    calls st' = calls st /\ forall e, r = Raise e -> P e.

(* the exceptions other than the "Too many arguments" [TypeError] *)
Definition not_too_many (e : exn) : Prop := e <> TypeError msg_too_many.

(* a computation whose "Too many arguments" outcome, if any, is the
   outcome of a call of [fn] *)
Definition too_many_only_from (fn : list value -> pydict -> result value)
    (m : M value) : Prop :=
  forall st st', m st = Some (Raise (TypeError msg_too_many), st') ->
    exists a k, calls st' = calls st ++ [(a, k)]
                /\ fn a k = Raise (TypeError msg_too_many).
End Quiet.

(** ** Shape of a bound dictionary with respect to a list of names *)

Module Shape.
Import Inspect.

(* every key of the dictionary is one of [names] *)
Definition named (names : list string) (d : pydict) : Prop :=
  forall k, k ∈ PyDict.keys d -> k ∈ names.

(* every parameter of the list has one of [names] *)
Definition known (names : list string) (ps : list Param) : Prop :=
  forall p, p ∈ ps -> param_name p ∈ names.
End Shape.

Module MoreScenarios.
Import NewDefer.

(* a callable that itself raises the "Too many arguments" error *)
Definition refuses (args : list value) (kwargs : pydict) : result value :=
  Raise (TypeError msg_too_many).
End MoreScenarios.

(** * Facts about insertion-ordered dictionaries *)

Module PyDictFacts.
Import PyDict.
Section facts.
Context {V : Type}.
Implicit Types (d e : list (string * V)) (k : string) (v : V).

Lemma eqb_refl k : String.eqb k k = true.
Proof. by apply String.eqb_eq. Qed.

Lemma eqb_ne k k' : k ≠ k' -> String.eqb k k' = false.
Proof. by intros; apply String.eqb_neq. Qed.

Lemma get_Some_elem k v d : get k d = Some v -> (k, v) ∈ d.
Proof.
  induction d as [|[k' v'] d IH]; simpl; [done|].
  destruct (String.eqb_spec k k') as [->|Hne].
  - intros [= ->]. left.
  - intros H. right. auto.
Qed.

Lemma get_None_keys k d : get k d = None <-> k ∉ keys d.
Proof.
  unfold keys. induction d as [|[k' v'] d IH]; simpl.
  - split; [intros _; apply not_elem_of_nil | done].
  - rewrite not_elem_of_cons.
    destruct (String.eqb_spec k k') as [->|Hne].
    + split; [done|]. by intros [? _].
    + rewrite IH. split; [done|]. by intros [_ ?].
Qed.

Lemma contains_keys k d : contains k d = true <-> k ∈ keys d.
Proof.
  unfold contains. destruct (get k d) eqn:E.
  - split; [intros _|done].
    destruct (decide (k ∈ keys d)) as [|Hn]; [done|].
    apply get_None_keys in Hn. congruence.
  - split; [done|]. apply get_None_keys in E. done.
Qed.

Lemma contains_false_keys k d : contains k d = false <-> k ∉ keys d.
Proof.
  rewrite <- contains_keys. destruct (contains k d); naive_solver.
Qed.

Lemma get_set_eq k v d : get k (set k v d) = Some v.
Proof.
  induction d as [|[k' v'] d IH]; simpl.
  - by rewrite eqb_refl.
  - destruct (String.eqb_spec k k') as [->|Hne]; simpl.
    + by rewrite eqb_refl.
    + by rewrite eqb_ne.
Qed.

Lemma get_set_ne k k' v d : k ≠ k' -> get k' (set k v d) = get k' d.
Proof.
  intros Hne. induction d as [|[k0 v0] d IH]; simpl.
  - by rewrite eqb_ne.
  - destruct (String.eqb_spec k k0) as [->|Hne0]; simpl.
    + by rewrite !(eqb_ne k' k0).
    + by rewrite IH.
Qed.

Lemma keys_set_elem k v d : k ∈ keys d -> keys (set k v d) = keys d.
Proof.
  unfold keys. induction d as [|[k0 v0] d IH]; simpl.
  - by intros ?%elem_of_nil.
  - destruct (String.eqb_spec k k0) as [->|Hne]; simpl; [done|].
    intros [?|?]%elem_of_cons; [done|]. f_equal. by apply IH.
Qed.

Lemma keys_set_fresh k v d : k ∉ keys d -> keys (set k v d) = keys d ++ [k].
Proof.
  unfold keys. induction d as [|[k0 v0] d IH]; simpl; [done|].
  rewrite not_elem_of_cons. intros [Hne Hnin].
  rewrite eqb_ne by done. simpl. f_equal. by apply IH.
Qed.

Lemma set_NoDup k v d : NoDup (keys d) -> NoDup (keys (set k v d)).
Proof.
  intros Hd. destruct (decide (k ∈ keys d)) as [Hin|Hnin].
  - by rewrite keys_set_elem.
  - rewrite keys_set_fresh by done.
    apply NoDup_app. split_and!; [done| |apply NoDup_singleton].
    intros x Hx ->%list_elem_of_singleton. done.
Qed.

Lemma update_NoDup d e : NoDup (keys d) -> NoDup (keys (update d e)).
Proof.
  unfold update. revert d.
  induction e as [|[k v] e IH]; intros d Hd; simpl; [done|].
  apply IH. by apply set_NoDup.
Qed.

Lemma keys_update_subset d e :
  (forall k, k ∈ keys e -> k ∈ keys d) -> keys (update d e) = keys d.
Proof.
  unfold update. revert d.
  induction e as [|[k v] e IH]; intros d Hsub; simpl; [done|].
  assert (k ∈ keys d) as Hk by (apply Hsub; left).
  rewrite IH; [by apply keys_set_elem|].
  intros k' Hk'. rewrite keys_set_elem by done. apply Hsub. by right.
Qed.

Lemma get_update_notin k d e :
  k ∉ keys e -> get k (update d e) = get k d.
Proof.
  unfold update. revert d.
  induction e as [|[k0 v0] e IH]; intros d; simpl; [done|].
  unfold keys; simpl. rewrite not_elem_of_cons. intros [Hne Hnin].
  rewrite IH by done. by apply get_set_ne.
Qed.

Lemma get_update_Some k v d e :
  NoDup (keys e) -> get k e = Some v -> get k (update d e) = Some v.
Proof.
  unfold update. revert d.
  induction e as [|[k0 v0] e IH]; intros d Hnd; simpl; [done|].
  unfold keys in Hnd; simpl in Hnd. apply NoDup_cons in Hnd as [Hnin Hnd].
  destruct (String.eqb_spec k k0) as [->|Hne].
  - intros [= ->].
    fold (update (set k0 v d) e). rewrite get_update_notin by done.
    apply get_set_eq.
  - intros H. by apply IH.
Qed.

Lemma remove_subseteq k d : remove k d ⊆ d.
Proof.
  induction d as [|[k0 v0] d IH]; simpl; [done|].
  destruct (String.eqb k k0).
  - by apply list_subseteq_cons.
  - intros x [->|?]%elem_of_cons; [left|right; by apply IH].
Qed.
End facts.
End PyDictFacts.

(** * Facts about the binder *)

Module BindFacts.
Import Inspect NewDefer PyDictFacts.

(* no value of the dictionary is an [ExpectsParameter] *)
Definition concrete (d : pydict) : Prop :=
  Forall (fun kv => _is_placeholder kv.2 = false) d.

Lemma concrete_any_placeholder d : concrete d -> any_placeholder d = false.
Proof.
  unfold any_placeholder, PyDict.values.
  induction 1 as [|[k v] d Hv _ IH]; [done|].
  cbn in *. rewrite Hv. exact IH.
Qed.

Lemma concrete_set k v d :
  _is_placeholder v = false -> concrete d -> concrete (PyDict.set k v d).
Proof.
  intros Hv. induction 1 as [|[k' v'] d Hv' Hd IH]; simpl.
  - by repeat constructor.
  - destruct (String.eqb k k'); by constructor.
Qed.

Lemma concrete_get k v d :
  concrete d -> PyDict.get k d = Some v -> _is_placeholder v = false.
Proof.
  intros Hd Hget%get_Some_elem.
  unfold concrete in Hd. rewrite Forall_forall in Hd. by apply (Hd (k, v)).
Qed.

Lemma concrete_remove k d : concrete d -> concrete (PyDict.remove k d).
Proof.
  unfold concrete. rewrite !Forall_forall.
  intros Hd x Hx. apply Hd. by apply (remove_subseteq k d).
Qed.

Lemma concrete_pop k v d d' :
  concrete d -> PyDict.pop k d = Some (v, d') ->
  _is_placeholder v = false /\ concrete d'.
Proof.
  unfold PyDict.pop. intros Hd. destruct (PyDict.get k d) eqn:E; [|done].
  intros [= <- <-]. split; [by eapply concrete_get | by apply concrete_remove].
Qed.

Lemma bind_positional_concrete partial parameters : forall arg_vals kwargs arguments a ps,
  Forall (fun v => _is_placeholder v = false) arg_vals ->
  concrete arguments ->
  bind_positional partial parameters arg_vals kwargs arguments = Ok (a, ps) ->
  concrete a.
Proof.
  induction parameters as [|param parameters IH]; intros arg_vals kwargs arguments a ps Hargs Ha; simpl.
  - destruct arg_vals; [|done]. by intros [= <- <-].
  - destruct arg_vals as [|arg_val arg_vals].
    + repeat case_match; try done; by intros [= <- <-].
    + apply Forall_cons in Hargs as [Hv Hargs].
      destruct (param_kind param) eqn:Ek; try done.
      * case_match; [done|]. apply IH; [done|]. by apply concrete_set.
      * case_match; [done|]. apply IH; [done|]. by apply concrete_set.
      * intros [= <- <-]. by apply concrete_set.
Qed.

Lemma bind_keywords_concrete partial parameters : forall kwargs arguments kp a k' kp',
  concrete kwargs ->
  concrete arguments ->
  bind_keywords partial parameters kwargs arguments kp = Ok (a, k', kp') ->
  concrete a /\ concrete k'.
Proof.
  induction parameters as [|param parameters IH]; intros kwargs arguments kp a k' kp' Hk Ha; simpl.
  - by intros [= <- <- <-].
  - assert (forall r : bool,
      match PyDict.pop (param_name param) kwargs with
      | Some (arg_val, kwargs') =>
          bind_keywords partial parameters kwargs'
            (PyDict.set (param_name param) arg_val arguments) kp
      | None =>
          if r then Raise (TypeError (msg_missing param))
          else bind_keywords partial parameters kwargs arguments kp
      end = Ok (a, k', kp') -> concrete a /\ concrete k') as Hpop.
    { intros r.
      destruct (PyDict.pop (param_name param) kwargs) as [[arg_val kwargs']|] eqn:Epop.
      - apply (concrete_pop _ _ _ _ Hk) in Epop as [Hv Hk'].
        apply IH; [done | by apply concrete_set].
      - destruct r; [done | by apply IH]. }
    destruct (param_kind param) eqn:Ek; simpl;
      try (by apply IH); try (by apply Hpop).
    destruct (PyDict.pop (param_name param) kwargs) as [[arg_val kwargs']|]; [done|].
    case_match; [done | by apply IH].
Qed.

(** Binding concrete values yields a dictionary without any top-level
    [ExpectsParameter]. *)
Lemma _bind_concrete sig args kwargs partial d :
  Forall (fun v => _is_placeholder v = false) args ->
  concrete kwargs ->
  _bind sig args kwargs partial = Ok d ->
  concrete d.
Proof.
  intros Hargs Hk. unfold _bind.
  destruct (bind_positional partial sig args kwargs []) as [[a ps]|] eqn:E1; [|done].
  apply bind_positional_concrete in E1; [|done|constructor].
  destruct (bind_keywords partial ps kwargs a None) as [[[a' k'] kp']|] eqn:E2; [|done].
  apply bind_keywords_concrete in E2 as [Ha' Hk']; [|done..].
  destruct k' as [|[k0 v0] k']; [by intros [= <-]|].
  destruct kp'; [|done]. intros [= <-]. by apply concrete_set.
Qed.

Lemma bind_positional_NoDup partial parameters : forall arg_vals kwargs arguments a ps,
  NoDup (PyDict.keys arguments) ->
  bind_positional partial parameters arg_vals kwargs arguments = Ok (a, ps) ->
  NoDup (PyDict.keys a).
Proof.
  induction parameters as [|param parameters IH]; intros arg_vals kwargs arguments a ps Ha; simpl.
  - destruct arg_vals; [|done]. by intros [= <- <-].
  - destruct arg_vals as [|arg_val arg_vals].
    + repeat case_match; try done; by intros [= <- <-].
    + destruct (param_kind param) eqn:Ek; try done.
      * case_match; [done|]. apply IH. by apply set_NoDup.
      * case_match; [done|]. apply IH. by apply set_NoDup.
      * intros [= <- <-]. by apply set_NoDup.
Qed.

Lemma bind_keywords_NoDup partial parameters : forall kwargs arguments kp a k' kp',
  NoDup (PyDict.keys arguments) ->
  bind_keywords partial parameters kwargs arguments kp = Ok (a, k', kp') ->
  NoDup (PyDict.keys a).
Proof.
  induction parameters as [|param parameters IH]; intros kwargs arguments kp a k' kp' Ha; simpl.
  - by intros [= <- <- <-].
  - destruct (param_kind param) eqn:Ek; simpl; try (by apply IH);
      (destruct (PyDict.pop (param_name param) kwargs) as [[arg_val kwargs']|];
       [ try done; apply IH; by apply set_NoDup
       | case_match; [done | by apply IH] ]).
Qed.

(** The dictionary built by the binder has pairwise distinct keys. *)
Lemma _bind_NoDup sig args kwargs partial d :
  _bind sig args kwargs partial = Ok d -> NoDup (PyDict.keys d).
Proof.
  unfold _bind.
  destruct (bind_positional partial sig args kwargs []) as [[a ps]|] eqn:E1; [|done].
  apply bind_positional_NoDup in E1; [|constructor].
  destruct (bind_keywords partial ps kwargs a None) as [[[a' k'] kp']|] eqn:E2; [|done].
  apply bind_keywords_NoDup in E2; [|done].
  destruct k' as [|[k0 v0] k']; [by intros [= <-]|].
  destruct kp'; [|done]. intros [= <-]. by apply set_NoDup.
Qed.
End BindFacts.

(** * The wrapper and the deferred call *)

Module DeferFacts.
Import Inspect NewDefer PyDictFacts BindFacts Scenarios.

Ltac run :=
  unfold mbind, Eff_bind, mret, Eff_ret, lift, raise, alloc, load, store; simpl.

Lemma run_bind {S A B} (m : Eff S A) (f : A -> Eff S B) st a st' :
  m st = Some (Ok a, st') -> (m ≫= f) st = f a st'.
Proof. intros H. unfold mbind, Eff_bind. by rewrite H. Qed.

Lemma run_load l d st : heap st !! l = Some d -> load l st = Some (Ok d, st).
Proof. intros H. unfold load. by rewrite H. Qed.

Lemma run_store l d d0 st :
  heap st !! l = Some d0 ->
  store l d st = Some (Ok tt, {| heap := <[l := d]> (heap st); calls := calls st |}).
Proof. intros H. unfold store. by rewrite H. Qed.

Lemma run_has_placeholders bound d st :
  heap st !! arguments bound = Some d ->
  _has_placeholders bound st = Some (Ok (any_placeholder d), st).
Proof.
  intros H. unfold _has_placeholders.
  erewrite run_bind by by apply run_load. reflexivity.
Qed.

Lemma run_len_arguments bound d st :
  heap st !! arguments bound = Some d ->
  len_arguments bound st = Some (Ok (length d), st).
Proof.
  intros H. unfold len_arguments.
  erewrite run_bind by by apply run_load. reflexivity.
Qed.

(** When the merged dictionary has neither an ['args'] nor a ['kwargs'] key,
    [resolve_placeholders] is the in-place [update] of [self.arguments]. *)
Lemma resolve_placeholders_named self bound d e st :
  heap st !! arguments self = Some d ->
  heap st !! arguments bound = Some e ->
  PyDict.contains "args" (PyDict.update d e) = false ->
  PyDict.contains "kwargs" (PyDict.update d e) = false ->
  resolve_placeholders self bound st
  = Some (Ok tt, {| heap := <[arguments self := PyDict.update d e]> (heap st);
                    calls := calls st |}).
Proof.
  intros Hd He Ha Hk.
  assert (arguments self < length (heap st))%nat as Hlt by by eapply lookup_lt_Some.
  unfold resolve_placeholders. simpl.
  erewrite run_bind by by apply run_load.
  erewrite run_bind by by apply run_load.
  erewrite run_bind by by eapply run_store.
  erewrite run_bind by (apply run_load; simpl; by apply list_lookup_insert_eq).
  rewrite Ha.
  erewrite run_bind by reflexivity.
  erewrite run_bind by (apply run_load; simpl; by apply list_lookup_insert_eq).
  rewrite Hk. reflexivity.
Qed.

Section wrapped.
Variable fn : list value -> pydict -> result value.
Variable fn_name : string.
Variable sig : Signature.

(** C5.  Pass-through: when the arguments bind against the signature
    (strict mode) and none of the positional or keyword values is an
    [ExpectsParameter], the wrapped callable returns exactly what
    [fn(args, kwargs)] returns or raises; [fn] is called once with the
    very arguments given, and the only other effect is the dictionary
    the binder allocated, so no deferred call is produced. *)
Theorem wrapper_pass_through args kwargs d st :
  _bind sig args kwargs false = Ok d ->
  Forall (fun v => _is_placeholder v = false) args ->
  Forall (fun kv => _is_placeholder kv.2 = false) kwargs ->
  wrapper fn fn_name sig args kwargs st
  = Some (fn args kwargs,
          {| heap := heap st ++ [d]; calls := calls st ++ [(args, kwargs)] |}).
Proof.
  intros Hbind Hargs Hkwargs.
  assert (any_placeholder d = false) as Hd.
  { apply concrete_any_placeholder. by eapply _bind_concrete. }
  unfold wrapper, Signature_bind, _has_placeholders. run.
  rewrite Hbind. simpl.
  rewrite list_lookup_middle by done. rewrite Hd.
  reflexivity.
Qed.

(** C3, as amended.  A completion that passes no keyword named [self] (the
    call itself refuses that one) and names only slots already present
    in the stored Bound Arguments, none of them called ['args'] or
    ['kwargs'], never raises "Too many arguments": every supplied value
    replaces the stored one, whether that was a placeholder or a concrete
    value and whether or not the two are equal.  The completion then
    raises "Missing argument(s)" if a top-level placeholder is left in
    the merged dictionary [m], and dispatches [fn] on [m] otherwise. *)
Theorem completion_overwrites_named_slots self args kwargs d e st :
  PyDict.contains "self" kwargs = false ->
  heap st !! arguments (_bound self) = Some d ->
  _bind sig args kwargs true = Ok e ->
  any_placeholder e = false ->
  (forall k, k ∈ PyDict.keys e -> k ∈ PyDict.keys d) ->
  PyDict.contains "args" d = false ->
  PyDict.contains "kwargs" d = false ->
  let m := PyDict.update d e in
  (forall k v, PyDict.get k e = Some v -> PyDict.get k m = Some v)
  /\ exists st1 names,
       calls st1 = calls st
       /\ __call__ fn sig self args kwargs st
          = (if any_placeholder m
             then raise (TypeError (msg_missing_prefix +:+ names))
             else dispatch fn (signature (_bound self)) m) st1.
Proof.
  intros Hself Hd Hbind He Hsub Hargs Hkwargs m. split.
  { intros k v. apply get_update_Some. by eapply _bind_NoDup. }
  assert (PyDict.keys m = PyDict.keys d) as Hkeys by by apply keys_update_subset.
  assert (PyDict.contains "args" m = false) as Hargs'.
  { apply contains_false_keys. rewrite Hkeys. by apply contains_false_keys. }
  assert (PyDict.contains "kwargs" m = false) as Hkwargs'.
  { apply contains_false_keys. rewrite Hkeys. by apply contains_false_keys. }
  set (l := arguments (_bound self)) in *.
  assert (l < length (heap st))%nat as Hlt by by eapply lookup_lt_Some.
  set (st1 := {| heap := <[l := m]> (heap st ++ [e]); calls := calls st |}).
  assert (heap st1 !! l = Some m) as Hm.
  { simpl. apply list_lookup_insert_eq. rewrite length_app. lia. }
  exists st1, (String.concat ", " (placeholder_names m)). split; [done|].
  unfold __call__, Signature_bind_partial. rewrite Hself.
  erewrite run_bind; cycle 1.
  { erewrite run_bind by (unfold lift; by rewrite Hbind).
    erewrite run_bind by reflexivity. reflexivity. }
  cbv beta zeta.
  erewrite run_bind
    by (apply run_has_placeholders; simpl; by apply list_lookup_middle).
  rewrite He.
  erewrite run_bind; cycle 1.
  { apply (resolve_placeholders_named _ _ d e); simpl.
    - by apply lookup_app_l_Some.
    - by apply list_lookup_middle.
    - done.
    - done. }
  simpl heap. simpl calls. simpl arguments. fold l m st1.
  erewrite run_bind by by apply run_len_arguments.
  erewrite run_bind by by apply run_len_arguments.
  rewrite Nat.ltb_irrefl.
  erewrite run_bind by by apply run_has_placeholders.
  destruct (any_placeholder m).
  - erewrite run_bind by by apply run_load. reflexivity.
  - erewrite run_bind by by apply run_load. reflexivity.
Qed.

(** C1.  Scenario A on the code: for [(x, *args, other=None)] the call
    [wrap(f)(P, 1, P, other=3)] returns a deferred call storing
    [x=P, args=(1, P), other=3]; completing it with [(0, 5)] dispatches
    [f(0, 5, other=3)]: the stored variadic slot [(1, P)] is replaced
    wholesale by the supplement's [(5,)], so the concrete [1] is lost.
    The list comprehension itself, run on [(P, 1, P)] with the replacement
    values [[7, 8]], keeps the [1] but takes the values from the right end:
    it yields [[8, 1, 7]]. *)
Theorem scenario_A_completion :
  wrapper fn fn_name sig_demo [P; VInt 1; P] [("other", VInt 3)] fresh
  = Some (Ok (VDeferred ("deferred_" +:+ fn_name) 0%nat),
          {| heap := [[("x", P); ("args", VTuple [VInt 1; P]); ("other", VInt 3)]];
             calls := [] |})
  /\ (step ← wrapper fn fn_name sig_demo [P; VInt 1; P] [("other", VInt 3)];
      call_value fn sig_demo step [VInt 0; VInt 5] []) fresh
     = Some (fn [VInt 0; VInt 5] [("other", VInt 3)],
             {| heap := [[("x", VInt 0); ("args", VList [VInt 5]); ("other", VInt 3)];
                         [("x", VInt 0)]];
                calls := [([VInt 0; VInt 5], [("other", VInt 3)])] |})
/\ fill_placeholders [P; VInt 1; P] [VInt 7; VInt 8]
   = Ok ([VInt 8; VInt 1; VInt 7], []).
Proof. repeat split; reflexivity. Qed.

(** C2.  A placeholder that lands only inside a variadic slot is not
    seen by the has-placeholder check: for [(x, *args, other=None)] the
    call [wrap(f)(0, 1, P, other=3)], and for [(x, **kwargs)] the call
    [wrap(f)(0, k=P)], both invoke [f] at once with the placeholder among
    its arguments and return its result instead of a deferred call. *)
Theorem variadic_placeholder_not_detected :
  wrapper fn fn_name sig_demo [VInt 0; VInt 1; P] [("other", VInt 3)] fresh
  = Some (fn [VInt 0; VInt 1; P] [("other", VInt 3)],
          {| heap := [[("x", VInt 0); ("args", VTuple [VInt 1; P]); ("other", VInt 3)]];
             calls := [([VInt 0; VInt 1; P], [("other", VInt 3)])] |})
  /\ wrapper fn fn_name sig_x_kwargs [VInt 0] [("k", P)] fresh
     = Some (fn [VInt 0] [("k", P)],
             {| heap := [[("x", VInt 0); ("kwargs", VDict [("k", P)])]];
                calls := [([VInt 0], [("k", P)])] |}).
Proof. split; reflexivity. Qed.

(** C4.  A failed completion changes the stored Bound Arguments.  For
    [(a, b)] and a deferred call created from [(P, P)], completing with
    [(1,)] raises "Missing argument(s) for deferred call: b" and leaves
    the stored dictionary at [a=1, b=P]; a following completion with
    [b=2] alone then dispatches [f(1, 2)], whereas the same completion
    on the untouched deferred call raises "Missing argument(s) ...: a". *)
Theorem failed_completion_mutates_snapshot :
  let create := wrapper fn fn_name sig_ab [P; P] [] in
  create fresh
  = Some (Ok (VDeferred ("deferred_" +:+ fn_name) 0%nat),
          {| heap := [[("a", P); ("b", P)]]; calls := [] |})
  /\ (step ← create; attempt (call_value fn sig_ab step [VInt 1] [])) fresh
     = Some (Ok (Raise (TypeError "Missing argument(s) for deferred call: b")),
             {| heap := [[("a", VInt 1); ("b", P)]; [("a", VInt 1)]];
                calls := [] |})
  /\ (step ← create;
      attempt (call_value fn sig_ab step [VInt 1] []);;
      call_value fn sig_ab step [] [("b", VInt 2)]) fresh
     = Some (fn [VInt 1; VInt 2] [],
             {| heap := [[("a", VInt 1); ("b", VInt 2)]; [("a", VInt 1)];
                         [("b", VInt 2)]];
                calls := [([VInt 1; VInt 2], [])] |})
  /\ (step ← create; call_value fn sig_ab step [] [("b", VInt 2)]) fresh
     = Some (Raise (TypeError "Missing argument(s) for deferred call: a"),
             {| heap := [[("a", P); ("b", VInt 2)]; [("b", VInt 2)]];
                calls := [] |}).
Proof. repeat split; reflexivity. Qed.

(** C6.  Too few, or too many, variadic replacement values on the code.
    For [(x, *args)]: a deferred call created from [(P, P, P)] has two
    placeholders in its variadic slot, and completing it with [(0, 5)]
    raises nothing and dispatches [f(0, 5)]; a deferred call created from
    [(P, 1, P)] completed with [(0, 5, 6)] dispatches [f(0, 5, 6)] although
    one supplement value is left over; and completed with [(0,)] it
    raises [IndexError], not "Missing argument(s)", after [x] has already
    been overwritten in the stored dictionary. *)
Theorem variadic_shortfall_dispatches :
  (step ← wrapper fn fn_name sig_x_args [P; P; P] [];
   call_value fn sig_x_args step [VInt 0; VInt 5] []) fresh
  = Some (fn [VInt 0; VInt 5] [],
          {| heap := [[("x", VInt 0); ("args", VList [VInt 5])]; [("x", VInt 0)]];
             calls := [([VInt 0; VInt 5], [])] |})
  /\ (step ← wrapper fn fn_name sig_x_args [P; VInt 1; P] [];
      call_value fn sig_x_args step [VInt 0; VInt 5; VInt 6] []) fresh
     = Some (fn [VInt 0; VInt 5; VInt 6] [],
             {| heap := [[("x", VInt 0); ("args", VList [VInt 5; VInt 6])];
                         [("x", VInt 0)]];
                calls := [([VInt 0; VInt 5; VInt 6], [])] |})
  /\ (step ← wrapper fn fn_name sig_x_args [P; VInt 1; P] [];
      call_value fn sig_x_args step [VInt 0] []) fresh
     = Some (Raise (IndexError "pop from empty list"),
             {| heap := [[("x", VInt 0); ("args", VTuple [VInt 1; P])];
                         [("x", VInt 0)]];
                calls := [] |}).
Proof. repeat split; reflexivity. Qed.
End wrapped.

Lemma wrapper_pass_through_witness :
  wrapper echo "demo" sig_demo [VInt 0; VInt 1] [("other", VInt 3)] fresh
  = Some (Ok (VTuple [VTuple [VInt 0; VInt 1]; VDict [("other", VInt 3)]]),
          {| heap := [[("x", VInt 0); ("args", VTuple [VInt 1]); ("other", VInt 3)]];
             calls := [([VInt 0; VInt 1], [("other", VInt 3)])] |}).
Proof.
  apply (wrapper_pass_through echo "demo" sig_demo [VInt 0; VInt 1]
           [("other", VInt 3)]
           [("x", VInt 0); ("args", VTuple [VInt 1]); ("other", VInt 3)] fresh).
  - reflexivity.
  - repeat constructor.
  - repeat constructor.
Defined.

Lemma completion_overwrites_named_slots_witness :
  (forall k v,
      PyDict.get k [("a", VInt 1); ("b", VInt 2)] = Some v ->
      PyDict.get k [("a", VInt 1); ("b", VInt 2)] = Some v)
  /\ exists st1 (names : string),
       calls st1 = []
       /\ __call__ echo sig_ab deferred_C [VInt 1; VInt 2] [] state_C
          = dispatch echo sig_ab [("a", VInt 1); ("b", VInt 2)] st1.
Proof.
  exact (completion_overwrites_named_slots echo sig_ab deferred_C
           [VInt 1; VInt 2] [] [("a", P); ("b", VInt 2)]
           [("a", VInt 1); ("b", VInt 2)] state_C
           eq_refl eq_refl eq_refl eq_refl (fun k H => H) eq_refl eq_refl).
Defined.

(** C3, counterexample.  Scenario C on the code: signature [(a, b)], a
    deferred call created from [(P, 2)] and completed with [(1, 2)].  No
    error is raised although [b] was already concrete: the completion
    calls the function with [(1, 2)] and returns its result. *)
Lemma scenario_C_dispatches :
  (step ← wrapper echo "f" sig_ab [P; VInt 2] [];
   call_value echo sig_ab step [VInt 1; VInt 2] []) fresh
  = Some (Ok (VTuple [VTuple [VInt 1; VInt 2]; VDict []]),
          {| heap := [[("a", VInt 1); ("b", VInt 2)]; [("a", VInt 1); ("b", VInt 2)]];
             calls := [([VInt 1; VInt 2], [])] |})
  /\ ~ exists st',
         (step ← wrapper echo "f" sig_ab [P; VInt 2] [];
          call_value echo sig_ab step [VInt 1; VInt 2] []) fresh
         = Some (Raise (TypeError msg_too_many), st').
Proof.
  split; [reflexivity|]. intros [st' H]. vm_compute in H. discriminate H.
Qed.

End DeferFacts.

(** * The parameter registry *)

Module RegistryFacts.
Import Params PyDictFacts Scenarios.

Lemma get_update_cases {V} k (d e : list (string * V)) :
  NoDup (PyDict.keys e) ->
  PyDict.get k (PyDict.update d e)
  = match PyDict.get k e with Some v => Some v | None => PyDict.get k d end.
Proof.
  intros He. destruct (PyDict.get k e) eqn:E.
  - by apply get_update_Some.
  - apply get_update_notin. by apply get_None_keys.
Qed.

Lemma merged_NoDup kwargs given_kwargs :
  NoDup (PyDict.keys (merged kwargs given_kwargs)).
Proof. unfold merged. apply update_NoDup, update_NoDup. constructor. Qed.

Lemma run_register self name strat m w :
  instances w !! self = Some m ->
  _register_param_value self name strat w
  = match m !! name with
    | Some _ => Some (Raise (KeyError (msg_registered name)), w)
    | None =>
        Some (Ok tt, {| _current_registry := _current_registry w;
                        instances := <[self := <[name := strat]> m]> (instances w) |})
    end.
Proof.
  intros H.
  unfold _register_param_value, _strategies, set_strategies, mbind, Eff_bind, raise.
  rewrite H. destruct (m !! name); [done|]. by rewrite H.
Qed.

(** Registering items with pairwise distinct names, none of them taken,
    succeeds and stores every item under its name. *)
Lemma register_items_ok self items : forall w m,
  NoDup (PyDict.keys items) ->
  instances w !! self = Some m ->
  (forall k, k ∈ PyDict.keys items -> m !! k = None) ->
  exists m',
    register_items self items w
    = Some (Ok tt, {| _current_registry := _current_registry w;
                      instances := <[self := m']> (instances w) |})
    /\ forall k, m' !! k = match PyDict.get k items with
                          | Some o => Some (as_strategy o)
                          | None => m !! k
                          end.
Proof.
  induction items as [|[name o] items IH]; intros w m Hnd Hm Hfresh.
  - exists m. split; [|done]. simpl. unfold mret, Eff_ret.
    rewrite list_insert_id by done. by destruct w.
  - unfold PyDict.keys in Hnd; simpl in Hnd. apply NoDup_cons in Hnd as [Hnin Hnd].
    assert (self < length (instances w))%nat as Hlt by by eapply lookup_lt_Some.
    set (m1 := <[name := as_strategy o]> m).
    set (w1 := {| _current_registry := _current_registry w;
                  instances := <[self := m1]> (instances w) |}).
    destruct (IH w1 m1) as (m' & Hrun & Hlook); [done| | |].
    { simpl. by apply list_lookup_insert_eq. }
    { intros k Hk. unfold m1.
      rewrite lookup_insert_ne by (intros ->; by apply Hnin).
      apply Hfresh. by right. }
    exists m'. split.
    + simpl. unfold mbind, Eff_bind.
      rewrite (run_register _ _ _ m) by done.
      rewrite Hfresh by left. fold m1 w1. rewrite Hrun. simpl.
      by rewrite list_insert_insert_eq.
    + intros k. rewrite Hlook. simpl.
      destruct (String.eqb_spec k name) as [->|Hne].
      * apply get_None_keys in Hnin. rewrite Hnin. unfold m1.
        by rewrite lookup_insert_eq.
      * destruct (PyDict.get k items); [done|]. unfold m1.
        by rewrite lookup_insert_ne.
Qed.

(** C7.  Mutual exclusion.  With no registry active, entering [first]
    installs it; while it is active, entering any instance [second] raises
    "Cannot enter ParamStrategyRegistry more than once" and changes
    nothing, so [first] stays the active one; when the [with] block of
    [first] ends, whatever outcome [r] its body had (a value or a raised
    error), that outcome is passed on, no registry is active, and entering
    any instance [next] succeeds. *)
Theorem registry_mutual_exclusion {A} (w w2 : world) (first second next : registry)
    (body : R A) (r : result A) :
  _current_registry w = None ->
  body {| _current_registry := Some first; instances := instances w |}
  = Some (r, w2) ->
  let w1 := {| _current_registry := Some first; instances := instances w |} in
  __enter__ first w = Some (Ok tt, w1)
  /\ __enter__ second w1 = Some (Raise (RuntimeError msg_enter), w1)
  /\ exists w3,
       with_registry first body w = Some (r, w3)
       /\ _current_registry w3 = None
       /\ exists w4,
            __enter__ next w3 = Some (Ok tt, w4)
            /\ _current_registry w4 = Some next.
Proof.
  intros Hnone Hbody w1. subst w1. unfold with_registry, __enter__, __exit__.
  rewrite Hnone, Hbody. simpl.
  split; [done|]. split; [done|].
  eexists. split; [reflexivity|]. split; [done|].
  eexists. split; reflexivity.
Qed.

Lemma registry_mutual_exclusion_witness :
  __enter__ 0%nat no_registry
  = Some (Ok tt, {| _current_registry := Some 0%nat; instances := [] |})
  /\ __enter__ 1%nat {| _current_registry := Some 0%nat; instances := [] |}
     = Some (Raise (RuntimeError msg_enter),
             {| _current_registry := Some 0%nat; instances := [] |})
  /\ exists w3,
       with_registry 0%nat (raise (A := unit) (RuntimeError "boom")) no_registry
       = Some (Raise (RuntimeError "boom"), w3)
       /\ _current_registry w3 = None
       /\ exists w4,
            __enter__ 2%nat w3 = Some (Ok tt, w4)
            /\ _current_registry w4 = Some 2%nat.
Proof.
  exact (registry_mutual_exclusion no_registry
           {| _current_registry := Some 0%nat; instances := [] |}
           0%nat 1%nat 2%nat (raise (RuntimeError "boom"))
           (Raise (RuntimeError "boom")) eq_refl eq_refl).
Defined.

(** C8.  Lookup by name.  With no registry active every lookup raises the
    "outside of a hypothesis @given" error; with an instance active and the
    name absent from it, the lookup raises the "has not been set up.
    Cannot resolve reference." error; with the name registered, the lookup
    returns the registered strategy.  The two messages differ for all
    names, and a lookup never changes the state. *)
Theorem get_by_name (w : world) (self : registry)
    (m : gmap string SearchStrategy) (name name' : string) :
  instances w !! self = Some m ->
  let active := {| _current_registry := Some self; instances := instances w |} in
  let inactive := {| _current_registry := None; instances := instances w |} in
  get name inactive = Some (Raise (RuntimeError (msg_outside name)), inactive)
  /\ (m !! name = None ->
      get name active = Some (Raise (RuntimeError (msg_not_set_up name)), active))
  /\ (forall strat, m !! name = Some strat ->
      get name active = Some (Ok strat, active))
  /\ msg_outside name <> msg_not_set_up name'.
Proof.
  intros Hm active inactive. unfold get. simpl. rewrite Hm.
  split; [done|]. split; [by intros ->|]. split; [by intros strat ->|].
  unfold msg_outside, msg_not_set_up. simpl. discriminate.
Qed.

Lemma get_by_name_witness :
  let m : gmap string SearchStrategy := {[ "a" := just (VInt 7) ]} in
  let active := {| _current_registry := Some 0%nat; instances := [m] |} in
  let inactive := {| _current_registry := None; instances := [m] |} in
  get "b" inactive = Some (Raise (RuntimeError (msg_outside "b")), inactive)
  /\ (m !! "b" = None ->
      get "b" active = Some (Raise (RuntimeError (msg_not_set_up "b")), active))
  /\ (forall strat, m !! "b" = Some strat ->
      get "b" active = Some (Ok strat, active))
  /\ msg_outside "b" <> msg_not_set_up "a".
Proof.
  exact (get_by_name {| _current_registry := None;
                        instances := [ {[ "a" := just (VInt 7) ]} ] |}
           0%nat {[ "a" := just (VInt 7) ]} "b" "a" eq_refl).
Defined.

(** C9, as amended.  Registering a name that is already present in an
    instance raises "Parameter ... already registered" whatever the two
    strategies are, and leaves the instance as it was after the first
    registration.  Constructing an instance from [kwargs] and
    [given_kwargs] never raises: the two mappings are merged first, a name
    present in both keeps the value of [kwargs], and every name of the
    merged mapping is registered once, a value that is not a strategy being
    wrapped in [just]. *)
Theorem registration_refuses_repeats_but_init_merges
    (self : registry) (name : string) (s1 s2 : SearchStrategy)
    (m : gmap string SearchStrategy) (w : world)
    (kwargs given_kwargs : list (string * pyobj)) :
  instances w !! self = Some m ->
  m !! name = None ->
  NoDup (PyDict.keys kwargs) ->
  NoDup (PyDict.keys given_kwargs) ->
  (exists w1,
      _register_param_value self name s1 w = Some (Ok tt, w1)
      /\ instances w1 !! self = Some (<[name := s1]> m)
      /\ _register_param_value self name s2 w1
         = Some (Raise (KeyError (msg_registered name)), w1))
  /\ (exists m',
        __init__ kwargs given_kwargs w
        = Some (Ok (length (instances w)),
                {| _current_registry := _current_registry w;
                   instances := instances w ++ [m'] |})
        /\ forall k,
             m' !! k = as_strategy <$>
                       match PyDict.get k kwargs with
                       | Some o => Some o
                       | None => PyDict.get k given_kwargs
                       end).
Proof.
  intros Hm Hname Hk Hg.
  assert (self < length (instances w))%nat as Hlt by by eapply lookup_lt_Some.
  split.
  - eexists. rewrite (run_register _ _ _ m) by done. rewrite Hname.
    split; [reflexivity|]. split.
    + simpl. by apply list_lookup_insert_eq.
    + erewrite run_register by (simpl; by apply list_lookup_insert_eq).
      by rewrite lookup_insert_eq.
  - set (w0 := {| _current_registry := _current_registry w;
                  instances := instances w ++ [∅] |}).
    destruct (register_items_ok (length (instances w)) (merged kwargs given_kwargs)
                w0 ∅) as (m' & Hrun & Hlook).
    { apply merged_NoDup. }
    { simpl. by apply list_lookup_middle. }
    { intros. apply lookup_empty. }
    exists m'. split.
    + unfold __init__, _register_param_values, new_instance, mbind, Eff_bind.
      fold w0. rewrite Hrun. unfold mret, Eff_ret. simpl.
      rewrite insert_app_r_alt by done. by rewrite Nat.sub_diag.
    + intros k. rewrite Hlook. unfold merged.
      rewrite get_update_cases by done. rewrite get_update_cases by done. simpl.
      rewrite lookup_empty.
      by destruct (PyDict.get k kwargs), (PyDict.get k given_kwargs).
Qed.

Lemma registration_refuses_repeats_but_init_merges_witness :
  let w := {| _current_registry := None; instances := [∅] |} in
  (exists w1,
      _register_param_value 0%nat "a" (just (VInt 1)) w = Some (Ok tt, w1)
      /\ instances w1 !! 0%nat = Some (<["a" := just (VInt 1)]> ∅)
      /\ _register_param_value 0%nat "a" (just (VInt 1)) w1
         = Some (Raise (KeyError (msg_registered "a")), w1))
  /\ (exists m',
        __init__ [("a", Obj (VInt 1))] [("a", Obj (VInt 2)); ("b", Obj (VInt 3))] w
        = Some (Ok 1%nat, {| _current_registry := None; instances := [∅] ++ [m'] |})
        /\ forall k,
             m' !! k = as_strategy <$>
                       match PyDict.get k [("a", Obj (VInt 1))] with
                       | Some o => Some o
                       | None => PyDict.get k [("a", Obj (VInt 2)); ("b", Obj (VInt 3))]
                       end).
Proof.
  apply (registration_refuses_repeats_but_init_merges 0%nat "a"
           (just (VInt 1)) (just (VInt 1)) ∅
           {| _current_registry := None; instances := [∅] |}
           [("a", Obj (VInt 1))] [("a", Obj (VInt 2)); ("b", Obj (VInt 3))]).
  - reflexivity.
  - reflexivity.
  - apply NoDup_singleton.
  - apply NoDup_cons. split; [|apply NoDup_singleton].
    intros H%list_elem_of_singleton. discriminate H.
Defined.

(** C9, counterexample.  A name present in both mappings is not a
    duplicate-registration error: the construction succeeds and the name is
    bound to the value of [kwargs]. *)
Lemma init_shared_name_succeeds :
  __init__ [("a", Obj (VInt 1))] [("a", Obj (VInt 2))] no_registry
  = Some (Ok 0%nat, {| _current_registry := None;
                       instances := [ {[ "a" := just (VInt 1) ]} ] |})
  /\ ~ exists w',
         __init__ [("a", Obj (VInt 1))] [("a", Obj (VInt 2))] no_registry
         = Some (Raise (KeyError (msg_registered "a")), w').
Proof.
  split; [reflexivity|]. intros [w' H]. vm_compute in H. discriminate H.
Qed.

(** C10.  [__exit__] does not look at the instance it is called on: with
    [a] active and [b] another instance, [b]'s exit clears the active
    slot; afterwards lookups fail as outside of any scope, and an instance
    can be entered again. *)
Theorem exit_clears_any_owner (w : world) (a b : registry) (name : string) :
  a <> b ->
  _current_registry w = Some a ->
  let w' := {| _current_registry := None; instances := instances w |} in
  __exit__ b w = Some (Ok tt, w')
  /\ get name w' = Some (Raise (RuntimeError (msg_outside name)), w')
  /\ __enter__ b w' = Some (Ok tt, {| _current_registry := Some b;
                                      instances := instances w |}).
Proof. intros _ _ w'. repeat split. Qed.

Lemma exit_clears_any_owner_witness :
  let w := {| _current_registry := Some 0%nat; instances := [∅; ∅] |} in
  let w' := {| _current_registry := None; instances := [∅; ∅] |} in
  __exit__ 1%nat w = Some (Ok tt, w')
  /\ get "a" w' = Some (Raise (RuntimeError (msg_outside "a")), w')
  /\ __enter__ 1%nat w' = Some (Ok tt, {| _current_registry := Some 1%nat;
                                          instances := [∅; ∅] |}).
Proof.
  apply (exit_clears_any_owner
           {| _current_registry := Some 0%nat; instances := [∅; ∅] |}
           0%nat 1%nat "a").
  - discriminate.
  - reflexivity.
Defined.

(** Scenario B of the specification, run through the constructor and the
    [with] block. *)
Example scenario_B :
  (r ← __init__ [("a", Obj (VInt 7))] [];
   inside ← with_registry r
              (x ← attempt (get "a"); y ← attempt (get "b"); mret (x, y));
   after ← attempt (get "a");
   mret (inside, after)) no_registry
  = Some (Ok (Ok (just (VInt 7)), Raise (RuntimeError (msg_not_set_up "b")),
              Raise (RuntimeError (msg_outside "a"))),
          {| _current_registry := None;
             instances := [ {[ "a" := just (VInt 7) ]} ] |}).
Proof. reflexivity. Qed.

End RegistryFacts.

(** * Further properties of the deferred call *)

Module QuietFacts.
Import Inspect NewDefer Quiet.

Lemma quiet_ret {A} P (a : A) : quiet P (mret a).
Proof. intros st r st' [= <- <-]. split; [done|]. by intros e. Qed.

Lemma quiet_raise {A} (P : exn -> Prop) e : P e -> quiet (A := A) P (raise e).
Proof. intros He st r st' [= <- <-]. split; [done|]. by intros e' [= <-]. Qed.

Lemma quiet_lift {A} (P : exn -> Prop) (r : result A) :
  (forall e, r = Raise e -> P e) -> quiet P (lift r).
Proof. intros Hr st r' st' [= <- <-]. by split. Qed.

Lemma quiet_alloc P d : quiet P (alloc d).
Proof. intros st r st' [= <- <-]. split; [done|]. by intros e. Qed.

Lemma quiet_load P l : quiet P (load l).
Proof.
  intros st r st'. unfold load. destruct (heap st !! l); [|done].
  intros [= <- <-]. split; [done|]. by intros e.
Qed.

Lemma quiet_store P l d : quiet P (store l d).
Proof.
  intros st r st'. unfold store. destruct (heap st !! l); [|done].
  intros [= <- <-]. split; [done|]. by intros e.
Qed.

Lemma quiet_bind {A B} P (m : M A) (f : A -> M B) :
  quiet P m -> (forall a, quiet P (f a)) -> quiet P (m ≫= f).
Proof.
  intros Hm Hf st r st'. unfold mbind, Eff_bind.
  destruct (m st) as [[[a|e] st1]|] eqn:E; [| |done].
  - intros H. destruct (Hm _ _ _ E) as [Hc _].
    destruct (Hf a _ _ _ H) as [Hc' Hr]. split; [congruence|done].
  - intros [= <- <-]. destruct (Hm _ _ _ E) as [Hc Hr]. split; [done|].
    intros e' [= <-]. by apply Hr.
Qed.

Lemma too_many_only_from_bind {A} fn (m : M A) (f : A -> M value) :
  quiet not_too_many m ->
  (forall a, too_many_only_from fn (f a)) ->
  too_many_only_from fn (m ≫= f).
Proof.
  intros Hm Hf st st'. unfold mbind, Eff_bind.
  destruct (m st) as [[[a|e] st1]|] eqn:E; [| |done].
  - intros H. destruct (Hm _ _ _ E) as [Hc _].
    destruct (Hf a _ _ H) as (args & k & Hcalls & Hfn).
    exists args, k. split; [congruence|done].
  - intros [= -> <-]. destruct (Hm _ _ _ E) as [_ Hr]. by destruct (Hr _ eq_refl).
Qed.

Lemma too_many_only_from_quiet fn (m : M value) :
  quiet not_too_many m -> too_many_only_from fn m.
Proof. intros Hm st st' H. destruct (Hm _ _ _ H) as [_ Hr]. by destruct (Hr _ eq_refl). Qed.

Lemma py_iter_raise v e : py_iter v = Raise e -> not_too_many e.
Proof. destruct v; simpl; intros [= <-]; discriminate. Qed.

Lemma getitem_raise k d e : getitem k d = Raise e -> not_too_many e.
Proof. unfold getitem. destruct (PyDict.get k d); intros [= <-]. discriminate. Qed.

Lemma fill_placeholders_raise items : forall args e,
  fill_placeholders items args = Raise e -> e = IndexError "pop from empty list".
Proof.
  induction items as [|a items IH]; intros args e; simpl; [done|].
  destruct (_is_placeholder a).
  - destruct (list_pop args) as [[v args']|]; [|by intros [= <-]].
    destruct (fill_placeholders items args') as [[r rest]|e'] eqn:E; [done|].
    intros [= <-]. by eapply IH.
  - destruct (fill_placeholders items args) as [[r rest]|e'] eqn:E; [done|].
    intros [= <-]. by eapply IH.
Qed.

Lemma merge_from_seq_raise items : forall d other_keys i e,
  merge_from_seq d other_keys i items = Raise e -> not_too_many e.
Proof.
  induction items as [|item items IH]; intros d other_keys i e; simpl; [done|].
  destruct (py_iter item) as [fast|]; [|intros [= <-]; discriminate].
  destruct fast as [|k [|v [|? ?]]]; try (intros [= <-]; discriminate).
  destruct (unhashable_type k); [intros [= <-]; discriminate|].
  destruct k; apply IH.
Qed.

Lemma dict_update_raise d other_keys o e :
  dict_update d other_keys o = Raise e -> not_too_many e.
Proof.
  unfold dict_update.
  destruct o; simpl; try (intros [= <-]; discriminate); try done;
    apply merge_from_seq_raise.
Qed.

Lemma value_update_raise t o e : value_update t o = Raise e -> not_too_many e.
Proof.
  unfold value_update. destruct t; try (intros [= <-]; discriminate).
  destruct (dict_update items false o) as [[d' b]|e'] eqn:E; [done|].
  intros [= <-]. by eapply dict_update_raise.
Qed.

Lemma quiet_resolve_placeholders self bound :
  quiet not_too_many (resolve_placeholders self bound).
Proof.
  unfold resolve_placeholders.
  repeat first
    [ apply quiet_ret | apply quiet_load | apply quiet_store
    | apply quiet_bind; [|intros ?]
    | apply quiet_lift; intros ?;
        first [ apply py_iter_raise | apply getitem_raise | apply value_update_raise
              | intros ->%fill_placeholders_raise; discriminate ]
    | match goal with
      | |- quiet _ (if ?b then _ else _) => destruct b
      | |- quiet _ (let '(_, _) := ?p in _) => destruct p
      end ].
Qed.

End QuietFacts.

Module GuardFacts.
Import Inspect NewDefer Quiet QuietFacts Scenarios MoreScenarios.

Lemma repr_prefix_ne s rest : repr s +:+ rest <> msg_too_many.
Proof.
  unfold repr. cbv zeta.
  destruct (existsb (Ascii.eqb "'") (String.list_ascii_of_string s)
            && negb (existsb (Ascii.eqb double_quote) (String.list_ascii_of_string s)));
    simpl; discriminate.
Qed.

Lemma msg_positional_only_ne p : not_too_many (TypeError (msg_positional_only p)).
Proof.
  intros H.
  assert (msg_positional_only p = msg_too_many) as H'
    by exact (f_equal (fun e => match e with TypeError m => m | _ => msg_too_many end) H).
  exact (repr_prefix_ne _ _ H').
Qed.

Ltac other_message := first [discriminate | apply msg_positional_only_ne].

Lemma bind_positional_raise partial parameters : forall arg_vals kwargs arguments e,
  bind_positional partial parameters arg_vals kwargs arguments = Raise e ->
  not_too_many e.
Proof.
  induction parameters as [|param parameters IH]; intros arg_vals kwargs arguments e; simpl.
  - destruct arg_vals; intros [= <-]. discriminate.
  - destruct arg_vals as [|arg_val arg_vals].
    + repeat case_match; intros [= <-]; other_message.
    + destruct (param_kind param); try (intros [= <-]; other_message);
        (case_match; [intros [= <-]; other_message | apply IH]).
Qed.

Lemma bind_keywords_raise partial parameters : forall kwargs arguments kp e,
  bind_keywords partial parameters kwargs arguments kp = Raise e ->
  not_too_many e.
Proof.
  induction parameters as [|param parameters IH]; intros kwargs arguments kp e; simpl; [done|].
  destruct (param_kind param); try apply IH;
    (destruct (PyDict.pop (param_name param) kwargs) as [[arg_val kwargs']|];
     [ simpl; first [ apply IH | intros [= <-]; other_message ]
     | case_match; [intros [= <-]; other_message | apply IH] ]).
Qed.

Lemma _bind_raise sig args kwargs partial e :
  _bind sig args kwargs partial = Raise e -> not_too_many e.
Proof.
  unfold _bind.
  destruct (bind_positional partial sig args kwargs []) as [[a ps]|e1] eqn:E1;
    [|intros [= <-]; by eapply bind_positional_raise].
  destruct (bind_keywords partial ps kwargs a None) as [[[a' k'] kp']|e2] eqn:E2;
    [|intros [= <-]; by eapply bind_keywords_raise].
  destruct k' as [|[k0 v0] k']; [done|].
  destruct kp'; [done|]. intros [= <-]. discriminate.
Qed.

Lemma args_loop_raise parameters arguments : forall args e,
  args_loop parameters arguments args = Raise e -> not_too_many e.
Proof.
  induction parameters as [|param parameters IH]; intros args e; simpl; [done|].
  destruct (param_kind param); try done;
    (destruct (PyDict.get (param_name param) arguments) as [arg|]; [|done]; simpl;
     first [ apply IH
           | destruct (py_iter arg) eqn:E;
             [apply IH | intros [= <-]; by eapply py_iter_raise] ]).
Qed.

Lemma kwargs_loop_raise parameters arguments : forall started kwargs other_keys e,
  kwargs_loop parameters arguments started kwargs other_keys = Raise e ->
  not_too_many e.
Proof.
  induction parameters as [|param parameters IH];
    intros started kwargs other_keys e; simpl; [done|].
  assert (forall e,
    match PyDict.get (param_name param) arguments with
    | Some arg =>
        if kind_eqb (param_kind param) VAR_KEYWORD
        then match dict_update kwargs other_keys arg with
             | Ok (kwargs', other_keys') =>
                 kwargs_loop parameters arguments true kwargs' other_keys'
             | Raise e => Raise e
             end
        else kwargs_loop parameters arguments true
               (PyDict.set (param_name param) arg kwargs) other_keys
    | None => kwargs_loop parameters arguments true kwargs other_keys
    end = Raise e -> not_too_many e) as Hvisit.
  { intros e'. destruct (PyDict.get (param_name param) arguments) as [arg|]; [|apply IH].
    destruct (kind_eqb (param_kind param) VAR_KEYWORD); [|apply IH].
    destruct (dict_update kwargs other_keys arg) as [[kwargs' other_keys']|e0] eqn:E;
      [apply IH|]. intros [= <-]. by eapply dict_update_raise. }
  destruct started; [apply Hvisit|].
  destruct (param_kind param); try apply Hvisit;
    (destruct (PyDict.contains (param_name param) arguments); apply IH).
Qed.

Section wrapped.
Variable fn : list value -> pydict -> result value.
Variable sig : Signature.

Lemma too_many_only_from_dispatch sig' d : too_many_only_from fn (dispatch fn sig' d).
Proof.
  unfold dispatch.
  apply too_many_only_from_bind;
    [apply quiet_lift; intros e; apply args_loop_raise | intros a].
  apply too_many_only_from_bind;
    [apply quiet_lift; intros e; apply kwargs_loop_raise | intros [k other_keys]].
  destruct other_keys; simpl.
  - apply too_many_only_from_quiet, quiet_raise. discriminate.
  - intros st st'. unfold call_fn. intros [= Hfn <-]. by exists a, k.
Qed.

Lemma len_guard_dead b1 b2 (rest : M value) :
  arguments b1 = arguments b2 ->
  too_many_only_from fn rest ->
  too_many_only_from fn
    (n1 ← len_arguments b1; n2 ← len_arguments b2;
     if (n2 <? n1)%nat then raise (TypeError msg_too_many) else rest).
Proof.
  intros Heq Hrest st st'.
  unfold len_arguments, mbind, Eff_bind, load, mret, Eff_ret. rewrite Heq.
  destruct (heap st !! arguments b2) as [d|] eqn:E; [|done].
  cbv beta iota. rewrite E. cbv beta iota.
  rewrite Nat.ltb_irrefl. apply Hrest.
Qed.

(** X1.  The "Too many arguments" guard of a completion never fires: the
    completed and the stored Bound Arguments share one dictionary, so the
    two lengths it compares are equal.  Whenever a completion ends with
    that very error, the wrapped function was called and it is the
    function that raised it. *)
Theorem too_many_guard_never_fires self args kwargs st st' :
  __call__ fn sig self args kwargs st = Some (Raise (TypeError msg_too_many), st') ->
  exists a k, calls st' = calls st ++ [(a, k)]
              /\ fn a k = Raise (TypeError msg_too_many).
Proof.
  revert st st'. change (too_many_only_from fn (__call__ fn sig self args kwargs)).
  unfold __call__, Signature_bind_partial.
  destruct (PyDict.contains "self" kwargs).
  { apply too_many_only_from_quiet, quiet_raise. discriminate. }
  apply too_many_only_from_bind; [|intros pb].
  { apply quiet_bind; [apply quiet_lift; intros e; apply _bind_raise | intros d].
    apply quiet_bind; [apply quiet_alloc | intros l]. apply quiet_ret. }
  cbv zeta.
  apply too_many_only_from_bind; [|intros hp].
  { unfold _has_placeholders. apply quiet_bind; [apply quiet_load | intros d].
    apply quiet_ret. }
  destruct hp.
  { apply too_many_only_from_quiet, quiet_raise. discriminate. }
  apply too_many_only_from_bind; [apply quiet_resolve_placeholders | intros _].
  apply len_guard_dead; [done|].
  apply too_many_only_from_bind; [|intros hp].
  { unfold _has_placeholders. apply quiet_bind; [apply quiet_load | intros d].
    apply quiet_ret. }
  destruct hp.
  - apply too_many_only_from_quiet.
    apply quiet_bind; [apply quiet_load | intros d].
    apply quiet_raise. unfold not_too_many, msg_missing_prefix, msg_too_many.
    simpl. discriminate.
  - apply too_many_only_from_bind; [apply quiet_load | intros d].
    apply too_many_only_from_dispatch.
Qed.
End wrapped.

Lemma too_many_guard_never_fires_witness :
  exists a k,
    calls {| heap := [[("a", VInt 1); ("b", VInt 2)]; [("a", VInt 1); ("b", VInt 2)]];
             calls := [([VInt 1; VInt 2], [])] |}
    = calls state_C ++ [(a, k)]
    /\ refuses a k = Raise (TypeError msg_too_many).
Proof.
  apply (too_many_guard_never_fires refuses sig_ab deferred_C [VInt 1; VInt 2] []
           state_C).
  reflexivity.
Defined.
End GuardFacts.

Module FillFacts.
Import Inspect NewDefer PyDictFacts BindFacts.

Lemma list_pop_Some args v args' :
  list_pop args = Some (v, args') <-> args = args' ++ [v].
Proof.
  unfold list_pop. split.
  - destruct (last args) as [x|] eqn:E; [|done].
    apply last_Some in E as [l' ->]. intros [= <- <-].
    by rewrite removelast_last.
  - intros ->. rewrite last_snoc. by rewrite removelast_last.
Qed.

Lemma list_pop_None args : list_pop args = None <-> args = [].
Proof.
  unfold list_pop. destruct (last args) eqn:E.
  - split; [done|]. intros ->. done.
  - split; [|done]. intros _. by apply last_None.
Qed.

(** X2.  When the list comprehension of [resolve_placeholders] succeeds,
    its result is as long as the list it ran over, every item that is not
    a placeholder stays where it was, and the placeholder with [j]
    placeholders to its left receives the value at index [j] of the
    REVERSED replacement list: values are taken from the right end. *)
Theorem fill_placeholders_from_the_right items : forall args r rest,
  fill_placeholders items args = Ok (r, rest) ->
  length r = length items
  /\ forall i a, items !! i = Some a ->
       r !! i = if _is_placeholder a
                then reverse args !! length (List.filter _is_placeholder (take i items))
                else Some a.
Proof.
  induction items as [|a0 items IH]; intros args r rest; simpl.
  - intros [= <- <-]. split; [done|]. intros i a. by rewrite lookup_nil.
  - destruct (_is_placeholder a0) eqn:Ea0.
    + destruct (list_pop args) as [[v args']|] eqn:Epop; [|done].
      apply list_pop_Some in Epop as ->.
      destruct (fill_placeholders items args') as [[r' rest']|] eqn:E; [|done].
      intros [= <- <-]. destruct (IH _ _ _ E) as [Hlen Hlook].
      split; [simpl; by rewrite Hlen|].
      intros [|i] a; simpl.
      * intros [= <-]. rewrite Ea0. by rewrite reverse_snoc.
      * intros Hi. rewrite (Hlook _ _ Hi). rewrite Ea0. simpl.
        by rewrite reverse_snoc.
    + destruct (fill_placeholders items args) as [[r' rest']|] eqn:E; [|done].
      intros [= <- <-]. destruct (IH _ _ _ E) as [Hlen Hlook].
      split; [simpl; by rewrite Hlen|].
      intros [|i] a; simpl.
      * intros [= <-]. by rewrite Ea0.
      * intros Hi. rewrite (Hlook _ _ Hi). by rewrite Ea0.
Qed.

Lemma fill_placeholders_from_the_right_witness :
  length [VInt 8; VInt 1; VInt 7] = length [VExpects None; VInt 1; VExpects None]
  /\ forall i a, [VExpects None; VInt 1; VExpects None] !! i = Some a ->
       [VInt 8; VInt 1; VInt 7] !! i
       = if _is_placeholder a
         then reverse [VInt 6; VInt 7; VInt 8]
                !! length (List.filter _is_placeholder
                             (take i [VExpects None; VInt 1; VExpects None]))
         else Some a.
Proof.
  apply (fill_placeholders_from_the_right [VExpects None; VInt 1; VExpects None]
           [VInt 6; VInt 7; VInt 8] [VInt 8; VInt 1; VInt 7] [VInt 6]).
  reflexivity.
Defined.

(** X3.  The comprehension succeeds exactly when there are at least as
    many replacement values as placeholders, and then leaves the unused
    values at the front of the replacement list untouched; with fewer
    values it raises [IndexError: pop from empty list]. *)
Theorem fill_placeholders_needs_enough_values items : forall args,
  match fill_placeholders items args with
  | Ok (r, rest) =>
      (length (List.filter _is_placeholder items) <= length args)%nat
      /\ rest = take (length args - length (List.filter _is_placeholder items)) args
  | Raise e =>
      (length args < length (List.filter _is_placeholder items))%nat
      /\ e = IndexError "pop from empty list"
  end.
Proof.
  induction items as [|a0 items IH]; intros args; simpl.
  - split; [lia|]. rewrite Nat.sub_0_r. by rewrite take_ge.
  - destruct (_is_placeholder a0) eqn:Ea0; simpl.
    + destruct (list_pop args) as [[v args']|] eqn:Epop.
      * apply list_pop_Some in Epop as ->. specialize (IH args').
        rewrite length_app. simpl.
        destruct (fill_placeholders items args') as [[r' rest']|e].
        -- destruct IH as [Hle ->]. split; [lia|].
           replace (length args' + 1 - S (length (List.filter _is_placeholder items)))%nat
             with (length args' - length (List.filter _is_placeholder items))%nat by lia.
           rewrite take_app_le by lia. done.
        -- destruct IH as [Hlt ->]. split; [lia|done].
      * apply list_pop_None in Epop as ->. simpl. split; [lia|done].
    + specialize (IH args).
      destruct (fill_placeholders items args) as [[r' rest']|e]; done.
Qed.

Lemma fill_placeholders_concrete items args :
  Forall (fun v => _is_placeholder v = false) items ->
  fill_placeholders items args = Ok (items, args).
Proof.
  induction 1 as [|a items Ha _ IH]; simpl; [done|]. by rewrite Ha, IH.
Qed.
End FillFacts.

Module MergeFacts.
Import Inspect NewDefer PyDictFacts BindFacts DeferFacts FillFacts Scenarios.

Lemma contains_update_false k (d e : pydict) :
  PyDict.contains k d = false -> PyDict.contains k e = false ->
  PyDict.contains k (PyDict.update d e) = false.
Proof.
  intros Hd He%contains_false_keys. unfold PyDict.contains in *.
  by rewrite get_update_notin.
Qed.

Lemma contains_set_ne k k' v (d : pydict) :
  k <> k' -> PyDict.contains k' (PyDict.set k v d) = PyDict.contains k' d.
Proof. intros. unfold PyDict.contains. by rewrite get_set_ne. Qed.

(** X4.  When the supplement carries an ['args'] tuple [t] without
    placeholders (and neither dictionary has a ['kwargs'] key), the merge
    succeeds and the stored ['args'] slot becomes the list [t], whatever it
    held before: nothing of the stored variadic values survives.  The
    supplement's dictionary loses its ['args'] entry. *)
Theorem resolve_placeholders_replaces_variadic_slot self bound d e t st :
  heap st !! arguments self = Some d ->
  heap st !! arguments bound = Some e ->
  arguments self <> arguments bound ->
  NoDup (PyDict.keys e) ->
  PyDict.get "args" e = Some (VTuple t) ->
  Forall (fun v => _is_placeholder v = false) t ->
  PyDict.contains "kwargs" d = false ->
  PyDict.contains "kwargs" e = false ->
  exists st',
    resolve_placeholders self bound st = Some (Ok tt, st')
    /\ heap st' !! arguments self
       = Some (PyDict.set "args" (VList t) (PyDict.update d e))
    /\ heap st' !! arguments bound = Some (PyDict.remove "args" e)
    /\ calls st' = calls st.
Proof.
  intros Hd He Hne Hnd Hargs Ht Hkd Hke.
  set (s := arguments self) in *. set (b := arguments bound) in *.
  assert (s < length (heap st))%nat as Hs by by eapply lookup_lt_Some.
  assert (b < length (heap st))%nat as Hb by by eapply lookup_lt_Some.
  set (m := PyDict.update d e).
  assert (PyDict.get "args" m = Some (VTuple t)) as Hm by by apply get_update_Some.
  set (h1 := <[s := m]> (heap st)).
  set (h2 := <[b := PyDict.remove "args" e]> h1).
  set (h3 := <[s := PyDict.set "args" (VList t) m]> h2).
  assert (h1 !! s = Some m) as H1s by by apply list_lookup_insert_eq.
  assert (h1 !! b = Some e) as H1b by (unfold h1; by rewrite list_lookup_insert_ne).
  assert (h2 !! s = Some m) as H2s by (unfold h2; by rewrite list_lookup_insert_ne).
  assert (s < length h2)%nat as Hs2 by (unfold h2, h1; by rewrite !length_insert).
  assert (h3 !! s = Some (PyDict.set "args" (VList t) m)) as H3s
    by by apply list_lookup_insert_eq.
  exists {| heap := h3; calls := calls st |}. split; [|split; [done|split; [|done]]].
  - unfold resolve_placeholders. cbv zeta. fold s b.
    erewrite run_bind by by apply run_load.
    erewrite run_bind by by apply run_load.
    erewrite run_bind by by eapply run_store.
    fold m h1.
    erewrite run_bind by by apply run_load.
    assert (PyDict.contains "args" m = true) as Hc
      by (unfold PyDict.contains; by rewrite Hm).
    rewrite Hc.
    erewrite run_bind; cycle 1.
    { erewrite run_bind by by apply run_load.
      unfold PyDict.pop_default. rewrite Hargs.
      erewrite run_bind by by eapply run_store.
      simpl heap. simpl calls. fold h2.
      erewrite run_bind by reflexivity.
      erewrite run_bind by by apply run_load.
      erewrite run_bind by (unfold lift, getitem; by rewrite Hm).
      erewrite run_bind by reflexivity.
      erewrite run_bind by (unfold lift; by rewrite fill_placeholders_concrete).
      erewrite run_bind by by apply run_load.
      by eapply run_store. }
    simpl heap. simpl calls. fold h3.
    erewrite run_bind by by apply run_load.
    rewrite contains_set_ne by done.
    unfold m. by rewrite contains_update_false.
  - simpl. unfold h3. rewrite list_lookup_insert_ne by done.
    unfold h2. apply list_lookup_insert_eq. unfold h1. by rewrite length_insert.
Qed.
Lemma resolve_placeholders_replaces_variadic_slot_witness :
  exists st',
    resolve_placeholders
      {| signature := sig_demo; arguments := 0%nat |}
      {| signature := sig_demo; arguments := 1%nat |}
      {| heap := [[("x", P); ("args", VTuple [VInt 1; P]); ("other", VInt 3)];
                  [("x", VInt 0); ("args", VTuple [VInt 5])]];
         calls := [] |}
    = Some (Ok tt, st')
    /\ heap st' !! 0%nat
       = Some [("x", VInt 0); ("args", VList [VInt 5]); ("other", VInt 3)]
    /\ heap st' !! 1%nat = Some [("x", VInt 0)]
    /\ calls st' = [].
Proof.
  apply (resolve_placeholders_replaces_variadic_slot
           {| signature := sig_demo; arguments := 0%nat |}
           {| signature := sig_demo; arguments := 1%nat |}
           [("x", P); ("args", VTuple [VInt 1; P]); ("other", VInt 3)]
           [("x", VInt 0); ("args", VTuple [VInt 5])] [VInt 5]).
  - reflexivity.
  - reflexivity.
  - discriminate.
  - apply (_bind_NoDup sig_demo [VInt 0; VInt 5] [] true). reflexivity.
  - reflexivity.
  - repeat constructor.
  - reflexivity.
  - reflexivity.
Defined.
End MergeFacts.

Module CompletionFacts.
Import Inspect NewDefer PyDictFacts BindFacts DeferFacts FillFacts MergeFacts Scenarios.

(** With no argument at all, partial binding succeeds and binds nothing. *)
Lemma bind_positional_nothing parameters arguments :
  exists ps, bind_positional true parameters [] [] arguments = Ok (arguments, ps).
Proof.
  destruct parameters as [|param parameters]; simpl; [by eexists|].
  repeat case_match; by eexists.
Qed.

Lemma bind_keywords_nothing parameters : forall arguments kp,
  exists kp', bind_keywords true parameters [] arguments kp = Ok (arguments, [], kp').
Proof.
  induction parameters as [|param parameters IH]; intros arguments kp; simpl;
    [by eexists|].
  destruct (param_kind param); simpl; apply IH.
Qed.

Lemma _bind_partial_nothing sig : _bind sig [] [] true = Ok [].
Proof.
  unfold _bind. destruct (bind_positional_nothing sig []) as [ps ->].
  by destruct (bind_keywords_nothing ps [] None) as [kp' ->].
Qed.

Section wrapped.
Variable fn : list value -> pydict -> result value.
Variable fn_name : string.
Variable sig : Signature.

(** The run of a completion that passes no keyword named [self] and names
    only slots already stored, none of them ['args'] or ['kwargs']. *)
Lemma completion_named_run self args kwargs d e st :
  PyDict.contains "self" kwargs = false ->
  heap st !! arguments (_bound self) = Some d ->
  _bind sig args kwargs true = Ok e ->
  any_placeholder e = false ->
  (forall k, k ∈ PyDict.keys e -> k ∈ PyDict.keys d) ->
  PyDict.contains "args" d = false ->
  PyDict.contains "kwargs" d = false ->
  let m := PyDict.update d e in
  __call__ fn sig self args kwargs st
  = (if any_placeholder m
     then raise (TypeError (msg_missing_prefix
                            +:+ String.concat ", " (placeholder_names m)))
     else dispatch fn (signature (_bound self)) m)
      {| heap := <[arguments (_bound self) := m]> (heap st ++ [e]);
         calls := calls st |}.
Proof.
  intros Hself Hd Hbind He Hsub Hargs Hkwargs m.
  assert (PyDict.keys m = PyDict.keys d) as Hkeys by by apply keys_update_subset.
  assert (PyDict.contains "args" m = false) as Hargs'.
  { apply contains_false_keys. rewrite Hkeys. by apply contains_false_keys. }
  assert (PyDict.contains "kwargs" m = false) as Hkwargs'.
  { apply contains_false_keys. rewrite Hkeys. by apply contains_false_keys. }
  set (l := arguments (_bound self)) in *.
  assert (l < length (heap st))%nat as Hlt by by eapply lookup_lt_Some.
  set (st1 := {| heap := <[l := m]> (heap st ++ [e]); calls := calls st |}).
  assert (heap st1 !! l = Some m) as Hm.
  { simpl. apply list_lookup_insert_eq. rewrite length_app. lia. }
  unfold __call__, Signature_bind_partial. rewrite Hself.
  erewrite run_bind; cycle 1.
  { erewrite run_bind by (unfold lift; by rewrite Hbind).
    erewrite run_bind by reflexivity. reflexivity. }
  cbv beta zeta.
  erewrite run_bind
    by (apply run_has_placeholders; simpl; by apply list_lookup_middle).
  rewrite He.
  erewrite run_bind; cycle 1.
  { apply (resolve_placeholders_named _ _ d e); simpl.
    - by apply lookup_app_l_Some.
    - by apply list_lookup_middle.
    - done.
    - done. }
  simpl heap. simpl calls. simpl arguments. fold l m st1.
  erewrite run_bind by by apply run_len_arguments.
  erewrite run_bind by by apply run_len_arguments.
  rewrite Nat.ltb_irrefl.
  erewrite run_bind by by apply run_has_placeholders.
  destruct (any_placeholder m).
  - erewrite run_bind by by apply run_load. reflexivity.
  - erewrite run_bind by by apply run_load. reflexivity.
Qed.

(** X5.  A completion that passes no keyword named [self], names only
    slots already stored (none called ['args'] or ['kwargs']) and leaves a
    top-level placeholder raises
    "Missing argument(s) for deferred call: " followed by the names, in
    dictionary order and separated by ", ", of exactly the slots that still
    hold a placeholder after the merge; the function is not called, and the
    stored dictionary is left holding the merged values. *)
Theorem missing_names_unresolved_slots_and_keeps_merge self args kwargs d e st :
  PyDict.contains "self" kwargs = false ->
  heap st !! arguments (_bound self) = Some d ->
  _bind sig args kwargs true = Ok e ->
  any_placeholder e = false ->
  (forall k, k ∈ PyDict.keys e -> k ∈ PyDict.keys d) ->
  PyDict.contains "args" d = false ->
  PyDict.contains "kwargs" d = false ->
  any_placeholder (PyDict.update d e) = true ->
  __call__ fn sig self args kwargs st
  = Some (Raise (TypeError (msg_missing_prefix
                            +:+ String.concat ", "
                                  (placeholder_names (PyDict.update d e)))),
          {| heap := <[arguments (_bound self) := PyDict.update d e]> (heap st ++ [e]);
             calls := calls st |})
  /\ forall k, k ∈ placeholder_names (PyDict.update d e)
       <-> exists v, (k, v) ∈ PyDict.update d e /\ _is_placeholder v = true.
Proof.
  intros Hself Hd Hbind He Hsub Hargs Hkwargs Hm. split.
  - rewrite (completion_named_run self args kwargs d e) by done.
    cbv zeta. by rewrite Hm.
  - intros k. unfold placeholder_names. rewrite list_elem_of_omap. split.
    + intros ([k' v] & Hin & Hk). simpl in Hk.
      destruct (_is_placeholder v) eqn:Ev; [|done]. injection Hk as ->. eauto.
    + intros (v & Hin & Hv). exists (k, v). split; [done|]. simpl. by rewrite Hv.
Qed.

(** X6.  A completed deferred call stays callable.  After a completion
    that passes no keyword named [self], names only slots already stored
    (none called ['args'] or ['kwargs']) and resolves every top-level
    placeholder, so that the function is dispatched with positional values
    [a] and keyword values [k], calling the deferred call again with no
    arguments dispatches the function a second time with the same [a] and
    [k]. *)
Theorem resolved_call_can_be_replayed self args kwargs d e a k st :
  PyDict.contains "self" kwargs = false ->
  heap st !! arguments (_bound self) = Some d ->
  _bind sig args kwargs true = Ok e ->
  any_placeholder e = false ->
  (forall k, k ∈ PyDict.keys e -> k ∈ PyDict.keys d) ->
  PyDict.contains "args" d = false ->
  PyDict.contains "kwargs" d = false ->
  any_placeholder (PyDict.update d e) = false ->
  BoundArguments_args (signature (_bound self)) (PyDict.update d e) = Ok a ->
  BoundArguments_kwargs (signature (_bound self)) (PyDict.update d e)
  = Ok (k, false) ->
  let l := arguments (_bound self) in
  let m := PyDict.update d e in
  (attempt (__call__ fn sig self args kwargs);; __call__ fn sig self [] []) st
  = Some (fn a k,
          {| heap := <[l := m]> (<[l := m]> (heap st ++ [e]) ++ [[]]);
             calls := (calls st ++ [(a, k)]) ++ [(a, k)] |}).
Proof.
  intros Hself Hd Hbind He Hsub Hargs Hkwargs Hm Ha Hk l m.
  fold m in Hm, Ha, Hk.
  assert (PyDict.keys m = PyDict.keys d) as Hkeys by by apply keys_update_subset.
  assert (l < length (heap st))%nat as Hlt by by eapply lookup_lt_Some.
  assert (dispatch fn (signature (_bound self)) m
          = fun st => Some (fn a k, {| heap := heap st;
                                       calls := calls st ++ [(a, k)] |})) as Hdisp.
  { unfold dispatch. run. by rewrite Ha, Hk. }
  erewrite run_bind; cycle 1.
  { unfold attempt. rewrite (completion_named_run self args kwargs d e) by done.
    cbv zeta. fold m l. rewrite Hm, Hdisp. reflexivity. }
  rewrite (completion_named_run self [] [] m []); simpl.
  - fold l. change (PyDict.update m []) with m. rewrite Hm, Hdisp. reflexivity.
  - done.
  - fold l. apply list_lookup_insert_eq. rewrite length_app. lia.
  - apply _bind_partial_nothing.
  - done.
  - intros k' Hk'. by apply elem_of_nil in Hk'.
  - apply contains_false_keys. rewrite Hkeys. by apply contains_false_keys.
  - apply contains_false_keys. rewrite Hkeys. by apply contains_false_keys.
Qed.

(** X7.  A completion that passes no keyword named [self] and whose own
    arguments bind to a dictionary with a top-level placeholder is refused with "Deferred call requires concrete
    values, not ExpectsParameter placeholders" before anything is merged:
    every dictionary already in the heap is unchanged and the function is
    not called. *)
Theorem completion_rejects_placeholders self args kwargs e st :
  PyDict.contains "self" kwargs = false ->
  _bind sig args kwargs true = Ok e ->
  any_placeholder e = true ->
  __call__ fn sig self args kwargs st
  = Some (Raise (TypeError msg_nested),
          {| heap := heap st ++ [e]; calls := calls st |}).
Proof.
  intros Hself Hbind He.
  unfold __call__, Signature_bind_partial. rewrite Hself.
  erewrite run_bind; cycle 1.
  { erewrite run_bind by (unfold lift; by rewrite Hbind).
    erewrite run_bind by reflexivity. reflexivity. }
  cbv beta zeta.
  erewrite run_bind
    by (apply run_has_placeholders; simpl; by apply list_lookup_middle).
  by rewrite He.
Qed.
End wrapped.
Lemma missing_names_unresolved_slots_and_keeps_merge_witness :
  __call__ echo sig_ab deferred_C [VInt 1] [] {| heap := [[("a", P); ("b", P)]]; calls := [] |}
  = Some (Raise (TypeError (msg_missing_prefix
                            +:+ String.concat ", "
                                  (placeholder_names
                                     (PyDict.update [("a", P); ("b", P)] [("a", VInt 1)])))),
          {| heap := <[0%nat := PyDict.update [("a", P); ("b", P)] [("a", VInt 1)]]>
                       ([[("a", P); ("b", P)]] ++ [[("a", VInt 1)]]);
             calls := [] |})
  /\ forall k, k ∈ placeholder_names (PyDict.update [("a", P); ("b", P)] [("a", VInt 1)])
       <-> exists v, (k, v) ∈ PyDict.update [("a", P); ("b", P)] [("a", VInt 1)]
                     /\ _is_placeholder v = true.
Proof.
  refine (missing_names_unresolved_slots_and_keeps_merge echo sig_ab deferred_C
            [VInt 1] [] [("a", P); ("b", P)] [("a", VInt 1)]
            {| heap := [[("a", P); ("b", P)]]; calls := [] |}
            eq_refl eq_refl eq_refl eq_refl _ eq_refl eq_refl eq_refl).
  intros k Hk. apply list_elem_of_singleton in Hk as ->. left.
Defined.

Lemma resolved_call_can_be_replayed_witness :
  (attempt (__call__ echo sig_ab deferred_C [VInt 1; VInt 2] []);;
   __call__ echo sig_ab deferred_C [] []) state_C
  = Some (echo [VInt 1; VInt 2] [],
          {| heap := <[0%nat := [("a", VInt 1); ("b", VInt 2)]]>
                       (<[0%nat := [("a", VInt 1); ("b", VInt 2)]]>
                          (heap state_C ++ [[("a", VInt 1); ("b", VInt 2)]]) ++ [[]]);
             calls := (calls state_C ++ [([VInt 1; VInt 2], [])])
                      ++ [([VInt 1; VInt 2], [])] |}).
Proof.
  exact (resolved_call_can_be_replayed echo sig_ab deferred_C [VInt 1; VInt 2] []
           [("a", P); ("b", VInt 2)] [("a", VInt 1); ("b", VInt 2)]
           [VInt 1; VInt 2] [] state_C
           eq_refl eq_refl eq_refl eq_refl (fun k H => H) eq_refl eq_refl eq_refl
           eq_refl eq_refl).
Defined.

Lemma completion_rejects_placeholders_witness :
  __call__ echo sig_ab deferred_C [VInt 1; P] [] state_C
  = Some (Raise (TypeError msg_nested),
          {| heap := heap state_C ++ [[("a", VInt 1); ("b", P)]];
             calls := calls state_C |}).
Proof.
  exact (completion_rejects_placeholders echo sig_ab deferred_C [VInt 1; P] []
           [("a", VInt 1); ("b", P)] state_C eq_refl eq_refl eq_refl).
Defined.
End CompletionFacts.

Module ShapeFacts.
Import Inspect NewDefer PyDictFacts BindFacts DeferFacts Shape Scenarios.

Lemma keys_set_cases {V} k k' (v : V) d :
  k' ∈ PyDict.keys (PyDict.set k v d) -> k' = k \/ k' ∈ PyDict.keys d.
Proof.
  destruct (decide (k ∈ PyDict.keys d)) as [Hin|Hnin].
  - rewrite keys_set_elem by done. by right.
  - rewrite keys_set_fresh by done.
    intros [?|Hk]%elem_of_app; [by right|]. left. by apply list_elem_of_singleton in Hk.
Qed.

Section names.
Variable names : list string.

Lemma named_set p v d ps : known names (p :: ps) -> named names d ->
  named names (PyDict.set (param_name p) v d).
Proof.
  intros Hp Hd k [->|?]%keys_set_cases; [apply Hp; left | by apply Hd].
Qed.

Lemma known_tail p ps : known names (p :: ps) -> known names ps.
Proof. intros H q Hq. apply H. by right. Qed.

Lemma bind_positional_named partial parameters :
  forall arg_vals kwargs arguments a ps,
  known names parameters -> named names arguments ->
  bind_positional partial parameters arg_vals kwargs arguments = Ok (a, ps) ->
  named names a /\ known names ps.
Proof.
  induction parameters as [|param parameters IH];
    intros arg_vals kwargs arguments a ps Hps Ha; simpl.
  - destruct arg_vals; [|done]. by intros [= <- <-].
  - pose proof (known_tail _ _ Hps) as Hps'.
    destruct arg_vals as [|arg_val arg_vals].
    + repeat case_match; try done; by intros [= <- <-].
    + destruct (param_kind param) eqn:Ek; try done.
      * case_match; [done|]. apply IH; [done|]. by eapply named_set.
      * case_match; [done|]. apply IH; [done|]. by eapply named_set.
      * intros [= <- <-]. split; [by eapply named_set | done].
Qed.

Lemma bind_keywords_named partial parameters :
  forall kwargs arguments kp a k' kp',
  known names parameters -> named names arguments ->
  (forall p, kp = Some p -> param_name p ∈ names) ->
  bind_keywords partial parameters kwargs arguments kp = Ok (a, k', kp') ->
  named names a /\ forall p, kp' = Some p -> param_name p ∈ names.
Proof.
  induction parameters as [|param parameters IH];
    intros kwargs arguments kp a k' kp' Hps Ha Hkp; simpl.
  - by intros [= <- <- <-].
  - pose proof (known_tail _ _ Hps) as Hps'.
    assert (param_name param ∈ names) as Hparam by (apply Hps; left).
    destruct (param_kind param) eqn:Ek; simpl.
    + destruct (PyDict.pop (param_name param) kwargs) as [[arg_val kwargs']|]; [done|].
      case_match; [done | by apply IH].
    + destruct (PyDict.pop (param_name param) kwargs) as [[arg_val kwargs']|].
      * apply IH; [done | by eapply named_set | done].
      * case_match; [done | by apply IH].
    + by apply IH.
    + destruct (PyDict.pop (param_name param) kwargs) as [[arg_val kwargs']|].
      * apply IH; [done | by eapply named_set | done].
      * case_match; [done | by apply IH].
    + apply IH; [done | done | by intros p [= <-]].
Qed.
End names.

(** Every key of the dictionary built by the binder is the name of a
    parameter of the signature. *)
Lemma _bind_named sig args kwargs partial d :
  _bind sig args kwargs partial = Ok d ->
  forall k, k ∈ PyDict.keys d -> k ∈ param_name <$> sig.
Proof.
  unfold _bind.
  assert (forall p, p ∈ sig -> param_name p ∈ param_name <$> sig) as Hsig
    by (intros p Hp; by apply list_elem_of_fmap_2).
  destruct (bind_positional partial sig args kwargs []) as [[a ps]|] eqn:E1; [|done].
  apply (bind_positional_named (param_name <$> sig)) in E1 as [Ha Hps];
    [|done|by intros k ?%elem_of_nil].
  destruct (bind_keywords partial ps kwargs a None) as [[[a' k'] kp']|] eqn:E2; [|done].
  apply (bind_keywords_named (param_name <$> sig)) in E2 as [Ha' Hkp']; [|done..].
  destruct k' as [|[k0 v0] k']; [by intros [= <-]|].
  destruct kp' as [p|]; [|done]. intros [= <-] k [->|?]%keys_set_cases.
  - by apply Hkp'.
  - by apply Ha'.
Qed.

Section wrapped.
Variable fn : list value -> pydict -> result value.
Variable fn_name : string.
Variable sig : Signature.

(** X8.  When the arguments bind in strict mode and some top-level bound
    value is a placeholder, the wrapper does not call the function: it
    returns a deferred call named "deferred_<function name>" that stores the
    bound dictionary, whose keys are pairwise distinct and are all names of
    parameters of the signature. *)
Theorem wrapper_defers_with_well_formed_arguments args kwargs d st :
  _bind sig args kwargs false = Ok d ->
  any_placeholder d = true ->
  wrapper fn fn_name sig args kwargs st
  = Some (Ok (VDeferred ("deferred_" +:+ fn_name) (length (heap st))),
          {| heap := heap st ++ [d]; calls := calls st |})
  /\ NoDup (PyDict.keys d)
  /\ forall k, k ∈ PyDict.keys d -> k ∈ param_name <$> sig.
Proof.
  intros Hbind Hd. split; [|split].
  - unfold wrapper, Signature_bind, _has_placeholders. run.
    rewrite Hbind. simpl. rewrite list_lookup_middle by done. by rewrite Hd.
  - by eapply _bind_NoDup.
  - by eapply _bind_named.
Qed.
End wrapped.

Lemma wrapper_defers_with_well_formed_arguments_witness :
  wrapper echo "demo" sig_demo [P; VInt 1; P] [("other", VInt 3)] fresh
  = Some (Ok (VDeferred ("deferred_" +:+ "demo") (length (heap fresh))),
          {| heap := heap fresh
                     ++ [[("x", P); ("args", VTuple [VInt 1; P]); ("other", VInt 3)]];
             calls := calls fresh |})
  /\ NoDup (PyDict.keys [("x", P); ("args", VTuple [VInt 1; P]); ("other", VInt 3)])
  /\ forall k,
       k ∈ PyDict.keys [("x", P); ("args", VTuple [VInt 1; P]); ("other", VInt 3)] ->
       k ∈ param_name <$> sig_demo.
Proof.
  exact (wrapper_defers_with_well_formed_arguments echo "demo" sig_demo
           [P; VInt 1; P] [("other", VInt 3)]
           [("x", P); ("args", VTuple [VInt 1; P]); ("other", VInt 3)] fresh
           eq_refl eq_refl).
Defined.

End ShapeFacts.

Module EmptyCompletion.
Import Inspect NewDefer PyDictFacts BindFacts DeferFacts CompletionFacts Scenarios.

Lemma any_placeholder_set k v cur (d : pydict) :
  any_placeholder d = true ->
  PyDict.get k d = Some cur ->
  _is_placeholder cur = false ->
  any_placeholder (PyDict.set k v d) = true.
Proof.
  unfold any_placeholder, PyDict.values.
  induction d as [|[k0 v0] d IH]; [done|]. cbn.
  destruct (String.eqb k k0); cbn.
  - intros H [= ->] Hcur. rewrite Hcur in H. cbn in H. rewrite H.
    apply orb_true_r.
  - destruct (_is_placeholder v0); [done|]. cbn. apply IH.
Qed.

Lemma heap_insert_id (h : list pydict) (l : loc) d :
  h !! l = Some d -> <[l := d]> h = h.
Proof. apply list_insert_id. Qed.

Lemma heap_insert_insert (h : list pydict) (l : loc) d d' :
  <[l := d]> (<[l := d']> h) = <[l := d]> h.
Proof. apply list_insert_insert_eq. Qed.

Lemma run_bind_raise {S A B} (m : Eff S A) (f : A -> Eff S B) st e st' :
  m st = Some (Raise e, st') -> (m ≫= f) st = Some (Raise e, st').
Proof. intros H. unfold mbind, Eff_bind. by rewrite H. Qed.

Lemma py_iter_Ok_concrete v l : py_iter v = Ok l -> _is_placeholder v = false.
Proof. by destruct v. Qed.

Lemma value_update_Ok_concrete t o new :
  value_update t o = Ok new -> _is_placeholder t = false.
Proof. by destruct t. Qed.

Lemma contains_get {V} k (d : list (string * V)) :
  PyDict.contains k d = true -> exists v, PyDict.get k d = Some v.
Proof. unfold PyDict.contains. destruct (PyDict.get k d); [by eexists | done]. Qed.

(** Merging an empty supplement never removes the last top-level
    placeholder: the merge either raises or leaves one in the stored
    dictionary. *)
Lemma resolve_placeholders_nothing self bound d st :
  heap st !! arguments self = Some d ->
  heap st !! arguments bound = Some [] ->
  arguments self <> arguments bound ->
  any_placeholder d = true ->
  exists r st',
    resolve_placeholders self bound st = Some (r, st')
    /\ calls st' = calls st
    /\ (r = Ok tt ->
        exists d', heap st' !! arguments self = Some d'
                   /\ any_placeholder d' = true).
Proof.
  intros Hs Hb Hne Hd. destruct st as [h c]. simpl in Hs, Hb.
  set (s := arguments self) in *. set (b := arguments bound) in *.
  assert (s < length h)%nat as Hls by by eapply lookup_lt_Some.
  assert (b < length h)%nat as Hlb by by eapply lookup_lt_Some.
  (* the ['args'] block *)
  assert (exists r1 d1,
    (if PyDict.contains "args" d
     then
       e ← load b;
       let '(popped, e') := PyDict.pop_default "args" (VTuple []) e in
       store b e';;
       args ← lift (py_iter popped);
       d ← load s;
       cur ← lift (getitem "args" d);
       items ← lift (py_iter cur);
       filled ← lift (fill_placeholders items args);
       d ← load s;
       store s (PyDict.set "args" (VList filled.1) d)
     else mret tt) {| heap := h; calls := c |}
    = Some (r1, {| heap := <[s := d1]> h; calls := c |})
    /\ any_placeholder d1 = true) as (r1 & d1 & Hblock & Hd1).
  { destruct (PyDict.contains "args" d) eqn:Hc; cbv iota.
    - apply contains_get in Hc as [cur Hcur].
      assert (forall k : list value -> list value -> M unit,
        (e ← load b;
         let '(popped, e') := PyDict.pop_default "args" (VTuple []) e in
         store b e';;
         args ← lift (py_iter popped);
         d ← load s;
         cur ← lift (getitem "args" d);
         k' ← lift (py_iter cur);
         k args k') {| heap := h; calls := c |}
        = (k' ← lift (py_iter cur); k [] k') {| heap := h; calls := c |}) as Hprefix.
      { intros k.
        erewrite run_bind by by apply run_load.
        unfold PyDict.pop_default.
        change (PyDict.get ?k (@nil (string * value))) with (@None value). cbv beta iota.
        erewrite run_bind by by eapply run_store.
        simpl heap; simpl calls. rewrite (heap_insert_id h b []) by done.
        erewrite run_bind by reflexivity.
        erewrite run_bind by by apply run_load.
        erewrite run_bind by (unfold lift, getitem; by rewrite Hcur).
        reflexivity. }
      destruct (py_iter cur) as [items|e] eqn:Eiter.
      + destruct (fill_placeholders items []) as [filled|e] eqn:Efill.
        * exists (Ok tt), (PyDict.set "args" (VList filled.1) d). split.
          -- rewrite Hprefix. unfold lift at 1.
             erewrite run_bind by reflexivity.
             erewrite run_bind by (unfold lift; by rewrite Efill).
             erewrite run_bind by by apply run_load.
             by erewrite run_store.
          -- eapply any_placeholder_set; [done..|]. by eapply py_iter_Ok_concrete.
        * exists (Raise e), d. split; [|done].
          rewrite Hprefix. unfold lift at 1.
          erewrite run_bind by reflexivity.
          unfold mbind, Eff_bind, lift. rewrite Efill.
          by rewrite (heap_insert_id h s d).
      + exists (Raise e), d. split; [|done].
        rewrite Hprefix. unfold mbind, Eff_bind, lift.
        by rewrite (heap_insert_id h s d).
    - exists (Ok tt), d. split; [|done].
      unfold mret, Eff_ret. by rewrite (heap_insert_id h s d). }
  assert (<[s := d1]> h !! s = Some d1) as Hs1 by by apply list_lookup_insert_eq.
  assert (<[s := d1]> h !! b = Some []) as Hb1 by by rewrite list_lookup_insert_ne.
  (* the part of [resolve_placeholders] before the ['kwargs'] test *)
  assert (resolve_placeholders self bound {| heap := h; calls := c |}
          = match r1 with
            | Ok _ =>
                (d ← load s;
                 if PyDict.contains "kwargs" d
                 then
                   e ← load b;
                   let '(kwargs, e') := PyDict.pop_default "kwargs" (VDict []) e in
                   store b e';;
                   d ← load s;
                   cur ← lift (getitem "kwargs" d);
                   new ← lift (value_update cur kwargs);
                   d ← load s;
                   store s (PyDict.set "kwargs" new d)
                 else mret tt) {| heap := <[s := d1]> h; calls := c |}
            | Raise e => Some (Raise e, {| heap := <[s := d1]> h; calls := c |})
            end) as Hhead.
  { unfold resolve_placeholders. cbv zeta. fold s b.
    erewrite run_bind by by apply run_load.
    erewrite run_bind by by apply run_load.
    erewrite run_bind by by eapply run_store.
    simpl heap; simpl calls. change (PyDict.update d []) with d.
    rewrite (heap_insert_id h s d) by done.
    erewrite run_bind by by apply run_load.
    destruct r1 as [[]|e1].
    - by erewrite run_bind by exact Hblock.
    - by erewrite run_bind_raise by exact Hblock. }
  rewrite Hhead. clear Hhead.
  destruct r1 as [[]|e1]; [|by eexists _, _].
  destruct (PyDict.contains "kwargs" d1) eqn:Hc.
  - apply contains_get in Hc as Hcur. destruct Hcur as [cur Hcur].
    destruct (value_update cur (VDict [])) as [new|e] eqn:Eupd.
    + eexists _, _. split; [|split].
      * erewrite run_bind by by apply run_load.
        rewrite Hc.
        erewrite run_bind by by apply run_load.
        unfold PyDict.pop_default.
        change (PyDict.get ?k (@nil (string * value))) with (@None value). cbv beta iota.
        erewrite run_bind by by eapply run_store.
        simpl heap; simpl calls. rewrite (heap_insert_id (<[s := d1]> h) b []) by done.
        erewrite run_bind by by apply run_load.
        erewrite run_bind by (unfold lift, getitem; by rewrite Hcur).
        erewrite run_bind by (unfold lift; by rewrite Eupd).
        erewrite run_bind by by apply run_load.
        by erewrite run_store.
      * done.
      * intros _. simpl. rewrite heap_insert_insert. eexists. split.
        -- by apply list_lookup_insert_eq.
        -- eapply any_placeholder_set; [done..|]. by eapply value_update_Ok_concrete.
    + eexists _, _. split; [|split].
      * erewrite run_bind by by apply run_load.
        rewrite Hc.
        erewrite run_bind by by apply run_load.
        unfold PyDict.pop_default.
        change (PyDict.get ?k (@nil (string * value))) with (@None value). cbv beta iota.
        erewrite run_bind by by eapply run_store.
        simpl heap; simpl calls. rewrite (heap_insert_id (<[s := d1]> h) b []) by done.
        erewrite run_bind by by apply run_load.
        erewrite run_bind by (unfold lift, getitem; by rewrite Hcur).
        unfold mbind, Eff_bind, lift. rewrite Eupd. reflexivity.
      * done.
      * done.
  - eexists _, _. split; [|split].
    + erewrite run_bind by by apply run_load. rewrite Hc. reflexivity.
    + done.
    + intros _. eauto.
Qed.

Section wrapped.
Variable fn : list value -> pydict -> result value.
Variable sig : Signature.

(** X9.  A deferred call whose stored dictionary holds a top-level
    placeholder cannot be completed with no arguments: the call always
    raises (the "Missing argument(s)" error, or an error of the merge) and
    the function is never called. *)
Theorem empty_completion_never_dispatches self d st :
  heap st !! arguments (_bound self) = Some d ->
  any_placeholder d = true ->
  exists e st',
    __call__ fn sig self [] [] st = Some (Raise e, st')
    /\ calls st' = calls st.
Proof.
  intros Hd Hph.
  set (l := arguments (_bound self)) in *.
  assert (l < length (heap st))%nat as Hlt by by eapply lookup_lt_Some.
  destruct (resolve_placeholders_nothing (copy (_bound self))
              (from_bound {| signature := sig; arguments := length (heap st) |}) d
              {| heap := heap st ++ [[]]; calls := calls st |})
    as (r & st1 & Hres & Hcalls & Hok); simpl.
  { by apply lookup_app_l_Some. }
  { by apply list_lookup_middle. }
  { fold l. lia. }
  { done. }
  assert (__call__ fn sig self [] [] st
          = match r with
            | Ok _ =>
                (raise (TypeError (msg_missing_prefix
                                   +:+ String.concat ", "
                                         (placeholder_names
                                            (default [] (heap st1 !! l)))))
                   : M value) st1
            | Raise e => Some (Raise e, st1)
            end) as Hrun.
  { unfold __call__, Signature_bind_partial.
    change (PyDict.contains "self" (@nil (string * value))) with false. cbv iota.
    erewrite run_bind; cycle 1.
    { erewrite run_bind by (unfold lift; by rewrite _bind_partial_nothing).
      erewrite run_bind by reflexivity. reflexivity. }
    cbv beta zeta.
    erewrite run_bind
      by (apply run_has_placeholders; simpl; by apply list_lookup_middle).
    change (any_placeholder []) with false. cbv iota.
    destruct r as [[]|e].
    - destruct (Hok eq_refl) as (d' & Hd' & Hph'). simpl in Hd'. fold l in Hd'.
      erewrite run_bind by exact Hres.
      erewrite run_bind by by apply run_len_arguments.
      erewrite run_bind by by apply run_len_arguments.
      rewrite Nat.ltb_irrefl.
      erewrite run_bind by by apply run_has_placeholders.
      rewrite Hph'.
      erewrite run_bind by by apply run_load.
      by rewrite Hd'.
    - by erewrite run_bind_raise by exact Hres. }
  rewrite Hrun. destruct r as [[]|e]; by eexists _, _.
Qed.
End wrapped.

Lemma empty_completion_never_dispatches_witness :
  exists e st',
    __call__ echo sig_ab deferred_C [] [] state_C = Some (Raise e, st')
    /\ calls st' = calls state_C.
Proof.
  exact (empty_completion_never_dispatches echo sig_ab deferred_C
           [("a", P); ("b", VInt 2)] state_C eq_refl eq_refl).
Defined.
End EmptyCompletion.

(** * Further properties of the parameter registry *)

Module RegistryScopes.
Import Params PyDictFacts RegistryFacts Scenarios.

(** The run of the constructor: it appends one instance, registers the
    merged mapping in it and leaves the active slot alone. *)
Lemma init_run kwargs given_kwargs w :
  NoDup (PyDict.keys kwargs) ->
  NoDup (PyDict.keys given_kwargs) ->
  exists m',
    __init__ kwargs given_kwargs w
    = Some (Ok (length (instances w)),
            {| _current_registry := _current_registry w;
               instances := instances w ++ [m'] |})
    /\ forall k,
         m' !! k = as_strategy <$>
                   match PyDict.get k kwargs with
                   | Some o => Some o
                   | None => PyDict.get k given_kwargs
                   end.
Proof.
  intros Hk Hg.
  set (w0 := {| _current_registry := _current_registry w;
                instances := instances w ++ [∅] |}).
  destruct (register_items_ok (length (instances w)) (merged kwargs given_kwargs)
              w0 ∅) as (m' & Hrun & Hlook).
  { apply merged_NoDup. }
  { simpl. by apply list_lookup_middle. }
  { intros. apply lookup_empty. }
  exists m'. split.
  - unfold __init__, _register_param_values, new_instance, mbind, Eff_bind.
    fold w0. rewrite Hrun. unfold mret, Eff_ret. simpl.
    rewrite insert_app_r_alt by done. by rewrite Nat.sub_diag.
  - intros k. rewrite Hlook. unfold merged.
    rewrite get_update_cases by done. rewrite get_update_cases by done. simpl.
    rewrite lookup_empty.
    by destruct (PyDict.get k kwargs), (PyDict.get k given_kwargs).
Qed.

(** X10.  Round trip through a scope.  With no registry active, building
    an instance from [kwargs] and [given_kwargs] and looking a name up
    inside its [with] block returns the value of [kwargs] for that name if
    it has one, else the value of [given_kwargs], a value that is not a
    strategy being wrapped in [just]; a name in neither mapping raises the
    "has not been set up" error.  In every case no registry is active after
    the block. *)
Theorem registry_round_trip kwargs given_kwargs name w :
  NoDup (PyDict.keys kwargs) ->
  NoDup (PyDict.keys given_kwargs) ->
  _current_registry w = None ->
  exists m',
    (r ← __init__ kwargs given_kwargs; with_registry r (get name)) w
    = Some (match PyDict.get name kwargs, PyDict.get name given_kwargs with
            | Some o, _ => Ok (as_strategy o)
            | None, Some o => Ok (as_strategy o)
            | None, None => Raise (RuntimeError (msg_not_set_up name))
            end,
            {| _current_registry := None; instances := instances w ++ [m'] |}).
Proof.
  intros Hk Hg Hnone.
  destruct (init_run kwargs given_kwargs w Hk Hg) as (m' & Hrun & Hlook).
  exists m'. unfold mbind, Eff_bind. rewrite Hrun.
  unfold with_registry, __enter__, __exit__, get. simpl. rewrite Hnone. simpl.
  rewrite list_lookup_middle by done. rewrite Hlook.
  by destruct (PyDict.get name kwargs), (PyDict.get name given_kwargs).
Qed.

Lemma registry_round_trip_witness :
  exists m',
    (r ← __init__ [("a", Obj (VInt 1))] [("a", Obj (VInt 2)); ("b", Strat (Strategy 0))];
     with_registry r (get "b")) no_registry
    = Some (Ok (Strategy 0),
            {| _current_registry := None; instances := [] ++ [m'] |}).
Proof.
  apply (registry_round_trip [("a", Obj (VInt 1))]
           [("a", Obj (VInt 2)); ("b", Strat (Strategy 0))] "b" no_registry).
  - apply NoDup_singleton.
  - apply NoDup_cons. split; [|apply NoDup_singleton].
    intros H%list_elem_of_singleton. discriminate H.
  - reflexivity.
Defined.

(** X11.  Scopes do not nest.  With no registry active, a [with] block
    of [inner] placed inside the [with] block of [outer] never runs its
    body: entering [inner] raises "Cannot enter ParamStrategyRegistry more
    than once", the error leaves the outer block, whose exit clears the
    active slot, and no instance is changed. *)
Theorem nested_scope_never_runs {A} (outer inner : registry) (body : R A) (w : world) :
  _current_registry w = None ->
  with_registry outer (with_registry inner body) w
  = Some (Raise (RuntimeError msg_enter),
          {| _current_registry := None; instances := instances w |}).
Proof. intros Hnone. unfold with_registry, __enter__, __exit__. by rewrite Hnone. Qed.

Lemma nested_scope_never_runs_witness :
  with_registry 0%nat (with_registry 1%nat (get "a"))
    {| _current_registry := None;
       instances := [ {[ "a" := just (VInt 7) ]}; {[ "a" := just (VInt 8) ]} ] |}
  = Some (Raise (RuntimeError msg_enter),
          {| _current_registry := None;
             instances := [ {[ "a" := just (VInt 7) ]}; {[ "a" := just (VInt 8) ]} ] |}).
Proof.
  apply (nested_scope_never_runs 0%nat 1%nat (get "a")
           {| _current_registry := None;
              instances := [ {[ "a" := just (VInt 7) ]}; {[ "a" := just (VInt 8) ]} ] |}).
  reflexivity.
Defined.

(** X12.  Registering a new name on the active instance is visible to
    the next lookup: the lookup of that name returns the strategy just
    registered, and the lookup of any other name behaves as before the
    registration. *)
Theorem registration_is_visible_to_lookup (self : registry) (name name' : string)
    (strat : SearchStrategy) (m : gmap string SearchStrategy) (w : world) :
  _current_registry w = Some self ->
  instances w !! self = Some m ->
  m !! name = None ->
  (_register_param_value self name strat;; get name') w
  = Some (if decide (name' = name) then Ok strat
          else match m !! name' with
               | Some strat' => Ok strat'
               | None => Raise (RuntimeError (msg_not_set_up name'))
               end,
          {| _current_registry := Some self;
             instances := <[self := <[name := strat]> m]> (instances w) |}).
Proof.
  intros Hcur Hm Hname.
  assert (self < length (instances w))%nat as Hlt by by eapply lookup_lt_Some.
  unfold mbind, Eff_bind. rewrite (run_register _ _ _ m) by done. rewrite Hname.
  unfold get. simpl. rewrite Hcur. rewrite list_lookup_insert_eq by done.
  destruct (decide (name' = name)) as [->|Hne].
  - by rewrite lookup_insert_eq.
  - rewrite lookup_insert_ne by done. by destruct (m !! name').
Qed.

Lemma registration_is_visible_to_lookup_witness :
  (_register_param_value 0%nat "b" (just (VInt 2));; get "b")
    {| _current_registry := Some 0%nat; instances := [ {[ "a" := just (VInt 1) ]} ] |}
  = Some (Ok (just (VInt 2)),
          {| _current_registry := Some 0%nat;
             instances := <[0%nat := <["b" := just (VInt 2)]> {[ "a" := just (VInt 1) ]}]>
                            [ {[ "a" := just (VInt 1) ]} ] |}).
Proof.
  apply (registration_is_visible_to_lookup 0%nat "b" "b" (just (VInt 2))
           {[ "a" := just (VInt 1) ]}
           {| _current_registry := Some 0%nat;
              instances := [ {[ "a" := just (VInt 1) ]} ] |}).
  - reflexivity.
  - reflexivity.
  - reflexivity.
Defined.

(** X13.  Constructing an instance while another one is active neither
    activates the new instance nor disturbs the active one: a lookup after
    the construction is answered from the active instance, exactly as
    before, whatever names the new instance registered. *)
Theorem construction_leaves_active_registry kwargs given_kwargs (active : registry)
    (m : gmap string SearchStrategy) (name : string) (w : world) :
  NoDup (PyDict.keys kwargs) ->
  NoDup (PyDict.keys given_kwargs) ->
  _current_registry w = Some active ->
  instances w !! active = Some m ->
  exists m',
    (__init__ kwargs given_kwargs;; get name) w
    = Some (match m !! name with
            | Some strat => Ok strat
            | None => Raise (RuntimeError (msg_not_set_up name))
            end,
            {| _current_registry := Some active; instances := instances w ++ [m'] |}).
Proof.
  intros Hk Hg Hcur Hm.
  destruct (init_run kwargs given_kwargs w Hk Hg) as (m' & Hrun & _).
  exists m'. unfold mbind, Eff_bind. rewrite Hrun.
  unfold get. simpl. rewrite Hcur.
  rewrite (lookup_app_l_Some _ _ _ _ Hm). by destruct (m !! name).
Qed.

Lemma construction_leaves_active_registry_witness :
  exists m',
    (__init__ [("a", Obj (VInt 9))] [];; get "a")
      {| _current_registry := Some 0%nat; instances := [ {[ "a" := just (VInt 1) ]} ] |}
    = Some (Ok (just (VInt 1)),
            {| _current_registry := Some 0%nat;
               instances := [ {[ "a" := just (VInt 1) ]} ] ++ [m'] |}).
Proof.
  exact (construction_leaves_active_registry [("a", Obj (VInt 9))] [] 0%nat
           {[ "a" := just (VInt 1) ]} "a"
           {| _current_registry := Some 0%nat;
              instances := [ {[ "a" := just (VInt 1) ]} ] |}
           (NoDup_singleton "a") (NoDup_nil_2 (A := string)) eq_refl eq_refl).
Defined.
End RegistryScopes.
